(** * Roster Purifier: the spreadsheet service, embedded and verified

    A shallow embedding of [src/services/excelService.ts]: [parseYMD], the tab
    selection of [parseExcel], [findMajorityMonth], [cleanRosterData] and
    [updateNames], together with the parts of the JavaScript runtime they
    call (string methods, [parseInt], the [Date] constructor and getters).

    Conventions.
    - A JavaScript string is a [string]: its characters are the code units
      below 256 (Latin-1), on which [toLowerCase], [\s] and [trim] are
      modelled in full.
    - A JavaScript number that the service computes with is an integer and
      is a [Z]; [NaN] is [None].  All integers met before [TimeClip] are
      non-negative or small, so the double-precision rounding of a huge
      operand cannot bring a time value back into the legal range: the
      exact computation in [Z] followed by the range test of [TimeClip]
      gives the engine's answer.
    - A [Date] object is its time value (milliseconds since the epoch, UTC);
      an invalid Date is not a cell of the model.
    - What ECMAScript leaves to the host (the zone offset, [Date.parse] on
      non-ISO text, [Date.prototype.toString]) is the class [Host]. *)

From Stdlib Require Import ZArith List String Ascii Bool Lia.
From Stdlib Require Import DecimalString.
From Stdlib Require DecimalZ DecimalPos.
Import ListNotations.

#[local] Open Scope string_scope.
#[local] Open Scope Z_scope.

(* ------------------------------------------------------------------ *)
(** ** JavaScript strings *)

Module JsString.

Definition code (c : ascii) : N := N_of_ascii c.

(** [\s] of a regular expression and the class stripped by [trim] and
    skipped by [parseInt]: TAB, LF, VT, FF, CR, space and the no-break
    space. *)
Definition isWhiteSpace (c : ascii) : bool :=
  let n := code c in
  ((9 <=? n) && (n <=? 13))%N || (n =? 32)%N || (n =? 160)%N.

(** What [.] of a regular expression refuses. *)
Definition isLineTerminator (c : ascii) : bool :=
  let n := code c in (n =? 10)%N || (n =? 13)%N.

(** [\d]. *)
Definition isDigit (c : ascii) : bool :=
  let n := code c in ((48 <=? n) && (n <=? 57))%N.

Definition digitValue (c : ascii) : Z := Z.of_N (code c) - 48.

(** The lower-case form of a code unit: A-Z, and the accented capitals
    U+00C0-U+00DE but for the multiplication sign U+00D7. *)
Definition lowerChar (c : ascii) : ascii :=
  let n := code c in
  if ((65 <=? n) && (n <=? 90))%N
     || ((192 <=? n) && (n <=? 222) && negb (n =? 215))%N
  then ascii_of_N (n + 32) else c.

Fixpoint toLowerCase (s : string) : string :=
  match s with
  | EmptyString => EmptyString
  | String c r => String (lowerChar c) (toLowerCase r)
  end.

Fixpoint trimStart (s : string) : string :=
  match s with
  | EmptyString => EmptyString
  | String c r => if isWhiteSpace c then trimStart r else s
  end.

Fixpoint trimEnd (s : string) : string :=
  match s with
  | EmptyString => EmptyString
  | String c r =>
      match trimEnd r with
      | EmptyString => if isWhiteSpace c then EmptyString else String c EmptyString
      | r' => String c r'
      end
  end.

Definition trim (s : string) : string := trimEnd (trimStart s).

Fixpoint startsWith (s p : string) : bool :=
  match p, s with
  | EmptyString, _ => true
  | String a p', String b s' => Ascii.eqb a b && startsWith s' p'
  | String _ _, EmptyString => false
  end.

(** [s.includes(p)]. *)
Fixpoint includes (s p : string) : bool :=
  startsWith s p ||
  match s with
  | EmptyString => false
  | String _ r => includes r p
  end.

(** [s.endsWith(p)]. *)
Fixpoint endsWith (s p : string) : bool :=
  String.eqb s p ||
  match s with
  | EmptyString => false
  | String _ r => endsWith r p
  end.

(** [s.split(re)] for a regular expression [re] that is a class of single
    characters: one more piece than there are separators. *)
Fixpoint split (sep : ascii -> bool) (s : string) : list string :=
  match s with
  | EmptyString => [EmptyString]
  | String c r =>
      if sep c then EmptyString :: split sep r
      else match split sep r with
           | p :: ps => String c p :: ps
           | [] => [String c EmptyString]
           end
  end.

Fixpoint readDigits (acc : Z) (s : string) : Z :=
  match s with
  | EmptyString => acc
  | String c r => if isDigit c then readDigits (10 * acc + digitValue c) r else acc
  end.

Definition readInteger (s : string) : option Z :=
  match s with
  | String c _ => if isDigit c then Some (readDigits 0 s) else None
  | EmptyString => None
  end.

(** [parseInt(s, 10)]: leading white space, an optional sign, the longest
    run of decimal digits; [NaN] when that run is empty. *)
Definition parseInt (s : string) : option Z :=
  match trimStart s with
  | String "-" r => option_map Z.opp (readInteger r)
  | String "+" r => readInteger r
  | r => readInteger r
  end.

(** [String(n)] of an integer below 10^21 in magnitude. *)
Definition ofZ (n : Z) : string := NilZero.string_of_int (Z.to_int n).

Fixpoint replicate (n : nat) (c : ascii) : string :=
  match n with
  | O => EmptyString
  | S k => String c (replicate k c)
  end.

(** [s.padStart(n, c)] for a one-character filler. *)
Definition padStart (n : nat) (c : ascii) (s : string) : string :=
  (replicate (n - String.length s) c ++ s)%string.

(** One attempt of [/\s*\(.*?\)\s*/] at the start of [s]: the rest of the
    string after the match.  The greedy [\s*] must take the whole run of
    white space (a shorter run is followed by white space, not by an opening
    parenthesis); the lazy [.*?] stops at the first closing parenthesis
    and cannot cross a line terminator. *)
Fixpoint afterClose (s : string) : option string :=
  match s with
  | EmptyString => None
  | String c r =>
      if Ascii.eqb c ")" then Some r
      else if isLineTerminator c then None
      else afterClose r
  end.

Definition matchAnnotation (s : string) : option string :=
  match trimStart s with
  | String "(" r => option_map trimStart (afterClose r)
  | _ => None
  end.

(** [s.replace(/\s*\(.*?\)\s*/g, ' ')]: the matches are found from left to
    right, each attempt starting where the previous match ended.  A match is
    never empty, so [fuel] = the length of the string is enough. *)
Fixpoint replaceAnnotations (fuel : nat) (s : string) : string :=
  match fuel, s with
  | S fuel', String c r =>
      match matchAnnotation s with
      | Some rest => String " " (replaceAnnotations fuel' rest)
      | None => String c (replaceAnnotations fuel' r)
      end
  | _, _ => s
  end.

Definition stripAnnotations (s : string) : string :=
  replaceAnnotations (String.length s) s.

End JsString.

(* ------------------------------------------------------------------ *)
(** ** JavaScript dates (ECMAScript, "Time Values and Time Range") *)

Module JsDate.

Definition msPerDay : Z := 86400000.

Definition Day (t : Z) : Z := t / msPerDay.

Definition DaysInYear (y : Z) : Z :=
  if negb (y mod 4 =? 0) then 365
  else if negb (y mod 100 =? 0) then 366
  else if negb (y mod 400 =? 0) then 365
  else 366.

Definition DayFromYear (y : Z) : Z :=
  365 * (y - 1970) + (y - 1969) / 4 - (y - 1901) / 100 + (y - 1601) / 400.

Definition TimeFromYear (y : Z) : Z := msPerDay * DayFromYear y.

(** The largest [y] with [DayFromYear y <= day]: the mean year has 146097/400
    days, which gives the year up to one, and the two comparisons settle it. *)
Definition YearFromDay (day : Z) : Z :=
  let y0 := 1970 + (400 * day) / 146097 in
  if DayFromYear (y0 + 1) <=? day then y0 + 1
  else if DayFromYear y0 <=? day then y0
  else y0 - 1.

Definition YearFromTime (t : Z) : Z := YearFromDay (Day t).

(** 1 in a leap year, 0 otherwise. *)
Definition LeapOfYear (y : Z) : Z := if DaysInYear y =? 366 then 1 else 0.

Definition InLeapYear (t : Z) : Z := LeapOfYear (YearFromTime t).

Definition DayWithinYear (t : Z) : Z := Day t - DayFromYear (YearFromTime t).

Definition MonthFromTime (t : Z) : Z :=
  let d := DayWithinYear t in
  let l := InLeapYear t in
  if d <? 31 then 0
  else if d <? 59 + l then 1
  else if d <? 90 + l then 2
  else if d <? 120 + l then 3
  else if d <? 151 + l then 4
  else if d <? 181 + l then 5
  else if d <? 212 + l then 6
  else if d <? 243 + l then 7
  else if d <? 273 + l then 8
  else if d <? 304 + l then 9
  else if d <? 334 + l then 10
  else 11.

Definition DateFromTime (t : Z) : Z :=
  let d := DayWithinYear t in
  let l := InLeapYear t in
  match MonthFromTime t with
  | 0 => d + 1
  | 1 => d - 30
  | 2 => d - 58 - l
  | 3 => d - 89 - l
  | 4 => d - 119 - l
  | 5 => d - 150 - l
  | 6 => d - 180 - l
  | 7 => d - 211 - l
  | 8 => d - 242 - l
  | 9 => d - 272 - l
  | 10 => d - 303 - l
  | _ => d - 333 - l
  end.

(** The day within the year on which month [mn] (0..11) starts. *)
Definition monthStart (mn l : Z) : Z :=
  match mn with
  | 0 => 0
  | 1 => 31
  | 2 => 59 + l
  | 3 => 90 + l
  | 4 => 120 + l
  | 5 => 151 + l
  | 6 => 181 + l
  | 7 => 212 + l
  | 8 => 243 + l
  | 9 => 273 + l
  | 10 => 304 + l
  | _ => 334 + l
  end.

(** [MakeDay(year, month, date)] on finite integers: the day number of the
    first of month [month mod 12] of year [year + floor(month / 12)], plus
    [date - 1]. *)
Definition MakeDay (year month date : Z) : Z :=
  let ym := year + month / 12 in
  let mn := month mod 12 in
  DayFromYear ym + monthStart mn (LeapOfYear ym) + date - 1.

Definition MakeTime (hour min sec ms : Z) : Z :=
  hour * 3600000 + min * 60000 + sec * 1000 + ms.

Definition MakeDate (day time : Z) : Z := day * msPerDay + time.

(** [TimeClip]: [NaN] beyond 8.64e15 ms on either side of the epoch. *)
Definition TimeClip (t : Z) : option Z :=
  if Z.abs t <=? 8640000000000000 then Some t else None.

End JsDate.

(* ------------------------------------------------------------------ *)
(** ** The host, cells and sheets *)

(** What the engine and its locale decide.  [localTZA] is the offset of local
    time from UTC in milliseconds, taken constant (no daylight-saving
    change); [dateParse] is [Date.parse] as [new Date(str)] calls it, [None]
    for [NaN]; [dateToString] is [String(d)] of a Date. *)
Class Host : Type := {
  localTZA : Z;
  dateParse : string -> option Z;
  dateToString : Z -> string
}.

(** A cell of a grid ([any] in the source): [null], [undefined] (also what
    reading past the end of a row gives), a string, a number, a Date. *)
Inductive Cell : Type :=
| CNull
| CUndefined
| CStr (s : string)
| CNum (n : Z)
| CDate (t : Z).

Definition Row : Type := list Cell.

(** [RosterSheet] of [types.ts]. *)
Record RosterSheet : Type := mkSheet {
  name : string;
  data : list Row
}.

(** JavaScript arrays: reading, writing and the callbacks with an index. *)
Module JsArray.

Section Generic.
Context {A B : Type}.

(** [a.map((x, i) => f(x, i))], counting from [i]. *)
Fixpoint mapFrom (i : nat) (f : A -> nat -> B) (l : list A) : list B :=
  match l with
  | [] => []
  | x :: r => f x i :: mapFrom (S i) f r
  end.

(** [a.filter((x, i) => p(x, i))], counting from [i]. *)
Fixpoint filterFrom (i : nat) (p : A -> nat -> bool) (l : list A) : list A :=
  match l with
  | [] => []
  | x :: r => if p x i then x :: filterFrom (S i) p r else filterFrom (S i) p r
  end.

(** [a.forEach((x, i) => ...)] threading the state the callback mutates. *)
Fixpoint forEachFrom (i : nat) (f : B -> A -> nat -> B) (l : list A) (st : B) : B :=
  match l with
  | [] => st
  | x :: r => forEachFrom (S i) f r (f st x i)
  end.

End Generic.

Definition mapi {A B} := @mapFrom A B 0.
Definition filteri {A} := @filterFrom A 0.
Definition forEachi {A B} := @forEachFrom A B 0.

(** [a.slice(0, n)]. *)
Definition slice0 {A} (n : nat) (l : list A) : list A := firstn n l.

(** [row[i]]. *)
Definition get (row : Row) (i : nat) : Cell := nth i row CUndefined.

(** [row[i] = v]: in range the cell is replaced; past the end the array
    grows, the cells in between reading as [undefined]. *)
Fixpoint set (row : Row) (i : nat) (v : Cell) : Row :=
  match i, row with
  | O, [] => [v]
  | O, _ :: r => v :: r
  | S k, [] => CUndefined :: set [] k v
  | S k, c :: r => c :: set r k v
  end.

End JsArray.

Import JsString JsDate JsArray.

(** [!val]. *)
Definition falsy (val : Cell) : bool :=
  match val with
  | CNull | CUndefined => true
  | CStr s => String.eqb s EmptyString
  | CNum n => n =? 0
  | CDate _ => false
  end.

Section Service.
Context {host : Host}.

(** [String(val)]. *)
Definition toStr (val : Cell) : string :=
  match val with
  | CNull => "null"
  | CUndefined => "undefined"
  | CStr s => s
  | CNum n => ofZ n
  | CDate t => dateToString t
  end.

Definition LocalTime (t : Z) : Z := t + localTZA.
Definition UTC (t : Z) : Z := t - localTZA.

(** [new Date(y, m, d, 0, 0, 0)] with [NaN] as [None]: a two-digit year
    counts from 1900; the result is [None] for an invalid Date. *)
Definition newDate (y m d : option Z) : option Z :=
  match y, m, d with
  | Some y, Some m, Some d =>
      let yr := if (0 <=? y) && (y <=? 99) then 1900 + y else y in
      TimeClip (UTC (MakeDate (MakeDay yr m d) (MakeTime 0 0 0 0)))
  | _, _, _ => None
  end.

Definition getFullYear (t : Z) : Z := YearFromTime (LocalTime t).
Definition getMonth (t : Z) : Z := MonthFromTime (LocalTime t).
Definition getDate (t : Z) : Z := DateFromTime (LocalTime t).

(** The class [[\/\-]] of the split. *)
Definition isDateSeparator (c : ascii) : bool :=
  Ascii.eqb c "/" || Ascii.eqb c "-".

(** The component branch of [parseYMD] (lines 16-24): [None] when the
    branch falls through to the native parser. *)
Definition parseComponents (str : string) : option Z :=
  match split isDateSeparator str with
  | [p0; p1; p2] =>
      let y := parseInt p0 in
      let m := option_map (fun n => n - 1) (parseInt p1) in
      let d := parseInt p2 in
      newDate y m d
  | _ => None
  end.

(** [parseYMD] (lines 9-29); [None] is [null]. *)
Definition parseYMD (val : Cell) : option Z :=
  match val with
  | CDate t => Some t
  | _ =>
      if falsy val then None
      else
        let str := trim (toStr val) in
        match parseComponents str with
        | Some date => Some date
        | None => dateParse str
        end
  end.

(** The key of lines 79 and 114:
    [`${d.getFullYear()}-${String(d.getMonth() + 1).padStart(2, '0')}`]. *)
Definition monthKey (d : Z) : string :=
  (ofZ (getFullYear d) ++ "-" ++ padStart 2 "0" (ofZ (getMonth d + 1)))%string.

(** *** parseExcel: which tabs are read (lines 43-50) *)

(** [/^\d{8}$/.test(name.trim())]. *)
Definition rosterTabPattern (s : string) : bool :=
  (String.length s =? 8)%nat && forallb isDigit (list_ascii_of_string s).

Definition isRosterTab (tab : string) : bool := rosterTabPattern (trim tab).

Definition targetSheetNames (fileName : string) (SheetNames : list string) : list string :=
  let isCsv := endsWith (toLowerCase fileName) ".csv" in
  let hasRosterTabs := existsb isRosterTab SheetNames in
  if hasRosterTabs && negb isCsv then filter isRosterTab SheetNames
  else SheetNames.

(** *** findMajorityMonth (lines 71-96) *)

(** [monthCounts]: an object with string keys none of which is an array
    index (each holds a dash), so [Object.entries] lists them in the order
    of their first assignment. *)
Definition Counts : Type := list (string * nat).

(** [monthCounts[k] = (monthCounts[k] || 0) + 1]. *)
Fixpoint increment (k : string) (c : Counts) : Counts :=
  match c with
  | [] => [(k, 1%nat)]
  | (k', n) :: r =>
      if String.eqb k' k then (k', S n) :: r else (k', n) :: increment k r
  end.

Definition countRow (monthCounts : Counts) (row : Row) (index : nat) : Counts :=
  if (index =? 0)%nat then monthCounts
  else match parseYMD (get row 2) with
       | Some d => increment (monthKey d) monthCounts
       | None => monthCounts
       end.

Definition countSheets (sheets : list RosterSheet) : Counts :=
  fold_left (fun monthCounts sheet => forEachi countRow (data sheet) monthCounts)
            sheets [].

(** The loop of lines 88-93 on the pair [(maxCount, majority)]. *)
Definition pickMax (st : nat * option string) (entry : string * nat)
  : nat * option string :=
  let '(maxCount, majority) := st in
  let '(month, count) := entry in
  if (maxCount <? count)%nat then (count, Some month) else (maxCount, majority).

Definition findMajorityMonth (sheets : list RosterSheet) : option string :=
  snd (fold_left pickMax (countSheets sheets) (0%nat, None)).

(** *** cleanRosterData (lines 104-139) *)

(** [while (truncated.length < 8) truncated.push(null)]; eight turns are
    enough for any array. *)
Fixpoint padLoop (fuel : nat) (truncated : Row) : Row :=
  match fuel with
  | O => truncated
  | S fuel' =>
      if (List.length truncated <? 8)%nat then padLoop fuel' (truncated ++ [CNull])%list
      else truncated
  end.

Definition keepRow (majorityMonth : string) (row : Row) (index : nat) : bool :=
  if (index =? 0)%nat then true
  else match parseYMD (get row 2) with
       | None => false
       | Some d => String.eqb (monthKey d) majorityMonth
       end.

Definition finalizeRow (row : Row) (rIdx : nat) : Row :=
  let truncated := padLoop 8 (slice0 8 row) in
  if (0 <? rIdx)%nat && negb (falsy (get truncated 2)) then
    match parseYMD (get truncated 2) with
    | Some d => set truncated 2 (CDate d)
    | None => truncated
    end
  else truncated.

Definition cleanSheet (majorityMonth : string) (sheet : RosterSheet) : RosterSheet :=
  let truncatedRows := slice0 72 (data sheet) in
  let cleanedRows := filteri (keepRow majorityMonth) truncatedRows in
  let finalizedRows := mapi finalizeRow cleanedRows in
  mkSheet (name sheet) finalizedRows.

Definition cleanRosterData (sheets : list RosterSheet) (majorityMonth : string)
  : list RosterSheet :=
  filter (fun sheet => (1 <? List.length (data sheet))%nat)
         (map (cleanSheet majorityMonth) sheets).

(** *** updateNames (lines 144-198) *)

(** Lines 145-149. *)
Definition staffFullNames (staffList : list Row) : list string :=
  filter (fun name => (0 <? String.length name)%nat)
    (map (fun name => trim (toStr name))
       (filter (fun name => match name with
                            | CNull | CUndefined => false
                            | _ => true
                            end)
          (map (fun row => get row 0) staffList))).

(** [if (m)] on the result of [find]: [undefined] and the empty string are
    both refused. *)
Definition truthy (m : option string) : option string :=
  match m with
  | Some s => if String.eqb s EmptyString then None else Some s
  | None => None
  end.

(** The alias of lines 165-171 and 173-179: the staff name to write, when
    the rule fires. *)
Definition aliasMatch (staff : list string) (rosterNameLower trigger target : string)
  : option string :=
  if String.eqb rosterNameLower trigger
  then truthy (find (fun sn => includes (toLowerCase sn) target) staff)
  else None.

(** Lines 160-161. *)
Definition cleanName (currentRosterName : Cell) : string :=
  trim (stripAnnotations (trim (toStr currentRosterName))).

(** The callback of [sheet.data.map] (lines 153-196).  A row is an array,
    so the guard [!row] never fires. *)
Definition updateRow (staff : list string) (row : Row) (rIdx : nat) : Row :=
  if (rIdx =? 0)%nat then row
  else
    let newRow := row in
    let currentRosterName := get newRow 5 in
    match currentRosterName with
    | CNull | CUndefined => newRow
    | _ =>
        let rosterNameStr := cleanName currentRosterName in
        let rosterNameLower := toLowerCase rosterNameStr in
        if String.eqb rosterNameStr EmptyString then newRow
        else
          match aliasMatch staff rosterNameLower "clara ckm" "clara cheung ka man" with
          | Some claraMatch => set newRow 5 (CStr claraMatch)
          | None =>
          match aliasMatch staff rosterNameLower "clara cheung" "clara cheung wing kum" with
          | Some claraWingMatch => set newRow 5 (CStr claraWingMatch)
          | None =>
          match truthy (find (fun sn => String.eqb (toLowerCase sn) rosterNameLower) staff) with
          | Some exactMatch => set newRow 5 (CStr exactMatch)
          | None =>
          match truthy (find (fun sn => includes (toLowerCase sn) rosterNameLower) staff) with
          | Some partialMatch => set newRow 5 (CStr partialMatch)
          | None => newRow
          end end end end
    end.

Definition updateNames (rosterSheets : list RosterSheet) (staffList : list Row)
  : list RosterSheet :=
  let staff := staffFullNames staffList in
  map (fun sheet => mkSheet (name sheet) (mapi (updateRow staff) (data sheet)))
      rosterSheets.

End Service.

(* ------------------------------------------------------------------ *)
(** ** The exporter and the caller of the service *)

(** What [startProcessing] leaves behind: one of its three alerts, or the
    verification step with the month and the roster it stored.  The alert
    "No matching data found" comes after [setMajorityMonth(month)]. *)
Inductive Outcome : Type :=
| AlertNoTabs
| AlertNoDates
| AlertEmpty (month : string)
| Verify (month : string) (finalRoster : list RosterSheet).

(** The list [l] with [x] at index [i]; [l] itself when it has no such
    index. *)
Fixpoint replaceAt {A} (l : list A) (i : nat) (x : A) : list A :=
  match l, i with
  | [], _ => []
  | _ :: r, O => x :: r
  | y :: r, S k => y :: replaceAt r k x
  end.

Section Caller.
Context {host : Host}.

(** The callback of [sheet.data.map] in [exportToExcel] (lines 207-218). *)
Definition exportRow (row : Row) (rIdx : nat) : Row :=
  if (rIdx =? 0)%nat then row
  else
    let newRow := row in
    if negb (falsy (get newRow 2)) then
      match parseYMD (get newRow 2) with
      | Some d => set newRow 2 (CDate d)
      | None => newRow
      end
    else newRow.

(** [numericData] of [exportToExcel]: the grid handed to the spreadsheet
    library for one sheet. *)
Definition numericData (sheet : RosterSheet) : list Row :=
  mapi exportRow (data sheet).

(** [handleCellChange] (lines 327-331): the roster stored by
    [setCleanedRoster], or [None] for the TypeError that reading [.data] of
    a missing sheet or writing into a missing row raises.  The stored array
    is a shallow copy: it shares the sheet and the row that are written. *)
Definition handleCellChange (cleanedRoster : list RosterSheet)
    (sheetIndex rowIndex colIndex : nat) (value : string)
  : option (list RosterSheet) :=
  match nth_error cleanedRoster sheetIndex with
  | None => None
  | Some sheet =>
      match nth_error (data sheet) rowIndex with
      | None => None
      | Some row =>
          Some (replaceAt cleanedRoster sheetIndex
                  (mkSheet (name sheet)
                     (replaceAt (data sheet) rowIndex
                        (set row colIndex (CStr value)))))
      end
  end.

(** [startProcessing] (lines 281-325) from the two workbooks that
    [parseExcel] resolved to; [staffSheets[0]?.data || []] is the staff
    grid. *)
Definition startProcessing (rosterSheets staffSheets : list RosterSheet) : Outcome :=
  if (List.length rosterSheets =? 0)%nat then AlertNoTabs
  else
    let staffData := match staffSheets with
                     | sheet :: _ => data sheet
                     | [] => []
                     end in
    match findMajorityMonth rosterSheets with
    | None => AlertNoDates
    | Some month =>
        if String.eqb month EmptyString then AlertNoDates
        else
          let cleaned := cleanRosterData rosterSheets month in
          if (List.length cleaned =? 0)%nat then AlertEmpty month
          else Verify month (updateNames cleaned staffData)
    end.

End Caller.

(* ------------------------------------------------------------------ *)
(** ** The vocabulary of the properties *)

(** A host for closed examples: the UTC zone, a [Date.parse] that accepts
    no text (the examples never reach it with a text it should accept) and a
    fixed [toString]. *)
Definition utcHost : Host :=
  {| localTZA := 0;
     dateParse := fun _ => None;
     dateToString := fun _ => "[object Date]" |}.

(** The calendar of the specification: the days of month [mn] (0..11) of year
    [y], and the triples (year, month 1..12, day) that are real dates. *)
Definition DaysInMonth (y mn : Z) : Z :=
  match mn with
  | 1 => 28 + LeapOfYear y
  | 3 | 5 | 8 | 10 => 30
  | _ => 31
  end.

Definition isCalendarDate (y m d : Z) : Prop :=
  1 <= m <= 12 /\ 1 <= d <= DaysInMonth y (m - 1).

(** The year the [Date] constructor builds from a year component:
    0..99 count from 1900. *)
Definition constructorYear (y : Z) : Z :=
  if (0 <=? y) && (y <=? 99) then 1900 + y else y.

(** The local time value of the midnight that [new Date(y, m - 1, d, 0, 0, 0)]
    denotes. *)
Definition localMidnight (y m d : Z) : Z :=
  MakeDate (MakeDay (constructorYear y) (m - 1) d) (MakeTime 0 0 0 0).

(** A cell of the first eight as [slice(0, 8)] and the padding leave it. *)
Definition paddedCell (row : Row) (j : nat) : Cell :=
  if (j <? List.length row)%nat then get row j else CNull.

(** The first 72 rows of a sheet, under the same tab name. *)
Definition first72 (sheet : RosterSheet) : RosterSheet :=
  mkSheet (name sheet) (slice0 72 (data sheet)).

(** Row [i] of sheet [k] of a workbook. *)
Definition rowAt (sheets : list RosterSheet) (k i : nat) : Row :=
  nth i (data (nth k sheets (mkSheet EmptyString []))) [].

(** The generic rules of lines 181-191: the first staff name equal to the
    cleaned name without regard to case, else the first that contains it. *)
Definition genericMatch (staff : list string) (rosterNameLower : string)
  : option string :=
  match find (fun sn => String.eqb (toLowerCase sn) rosterNameLower) staff with
  | Some exactMatch => Some exactMatch
  | None => find (fun sn => includes (toLowerCase sn) rosterNameLower) staff
  end.

(** The name [updateRow] writes for a cleaned, lower-cased roster name, if
    any: the two aliases, then the generic rules. *)
Definition resolution (staff : list string) (rosterNameLower : string)
  : option string :=
  match aliasMatch staff rosterNameLower "clara ckm" "clara cheung ka man" with
  | Some claraMatch => Some claraMatch
  | None =>
  match aliasMatch staff rosterNameLower "clara cheung" "clara cheung wing kum" with
  | Some claraWingMatch => Some claraWingMatch
  | None => genericMatch staff rosterNameLower
  end end.

(** Two rows that differ at most at index 5. *)
Definition sameBut5 (row row' : Row) : Prop :=
  List.length row' = List.length row /\
  forall j, j <> 5%nat -> get row' j = get row j.

(** The month key a data row contributes, if its date cell parses. *)
Definition rowKeys {host : Host} (row : Row) : list string :=
  match parseYMD (get row 2) with
  | Some d => [monthKey d]
  | None => []
  end.

(** The month keys of all rows but row 0 of each sheet, in the order of the
    scan: sheet after sheet, row after row. *)
Definition dateKeys {host : Host} (sheets : list RosterSheet) : list string :=
  flat_map (fun sheet => flat_map rowKeys (tl (data sheet))) sheets.

(** How often [k] occurs among [keys]. *)
Definition occurrences (keys : list string) (k : string) : nat :=
  count_occ string_dec keys k.

(** [monthCounts] once the keys [keys] have been counted into [c], one
    assignment each. *)
Definition tally (keys : list string) (c : Counts) : Counts :=
  fold_left (fun c k => increment k c) keys c.

(** [monthCounts[k] || 0]. *)
Fixpoint countOf (k : string) (c : Counts) : nat :=
  match c with
  | [] => 0
  | (k', n) :: r => if String.eqb k' k then n else countOf k r
  end.

(** The keys of the object after one more assignment. *)
Definition addKey (ks : list string) (k : string) : list string :=
  if existsb (fun k' => String.eqb k' k) ks then ks else (ks ++ [k])%list.

(** The keys in the order of their first assignment. *)
Definition firstSeen (keys : list string) : list string :=
  fold_left addKey keys [].

(** A row that is clean for a month: eight cells, a Date of that month at
    index 2. *)
Definition cleanRow {host : Host} (majorityMonth : string) (row : Row) : Prop :=
  List.length row = 8%nat /\
  exists d, get row 2 = CDate d /\ monthKey d = majorityMonth.

(** Every character of [s] satisfies [p]. *)
Fixpoint allChars (p : ascii -> bool) (s : string) : bool :=
  match s with
  | EmptyString => true
  | String c r => p c && allChars p r
  end.

(** How many characters of [s] satisfy [p]. *)
Fixpoint countChars (p : ascii -> bool) (s : string) : nat :=
  match s with
  | EmptyString => 0
  | String c r => ((if p c then 1 else 0) + countChars p r)%nat
  end.

(** No opening parenthesis. *)
Definition noOpen (s : string) : bool :=
  allChars (fun c => negb (Ascii.eqb c "(")) s.

(** Text that may stand inside one annotation: no closing parenthesis and
    no line terminator. *)
Definition annotationText (s : string) : bool :=
  allChars (fun c => negb (Ascii.eqb c ")") && negb (isLineTerminator c)) s.

(** Two rows of one length that differ at most at index 2. *)
Definition sameBut2 (row row' : Row) : Prop :=
  List.length row' = List.length row /\
  forall j, j <> 2%nat -> get row' j = get row j.

(** The date cell as [exportToExcel] stores it: the Date it parses to, or
    the cell itself. *)
Definition exportedDateCell {host : Host} (cell : Cell) : Cell :=
  match parseYMD cell with
  | Some d => CDate d
  | None => cell
  end.

(** A sheet as the verification step shows it: a header of eight cells over
    at least one and at most 71 rows that are clean for the month. *)
Definition verifiedSheet {host : Host} (month : string) (sheet : RosterSheet) : Prop :=
  exists header row rows,
    data sheet = header :: row :: rows /\
    List.length header = 8%nat /\
    (List.length (data sheet) <= 72)%nat /\
    Forall (cleanRow month) (row :: rows).

(* ------------------------------------------------------------------ *)
(** ** A small workbook *)

Module Sample.

Definition header : Row :=
  [CStr "Shift"; CStr "Ward"; CStr "Date"; CStr "From"; CStr "To";
   CStr "Name"; CStr "Grade"; CStr "Note"; CStr "Extra"].

Definition march5 : Row :=
  [CStr "AM"; CNull; CStr "2024/03/05"; CNull; CNull; CStr "J. Smith (am)"].

Definition april2 : Row :=
  [CStr "PM"; CNull; CStr "2024-04-02"; CNull; CNull; CStr "Ann Lee"].

Definition march9 : Row :=
  [CStr "N"; CStr "W3"; CStr "2024-03-09"; CStr "21:00"; CStr "07:00";
   CStr "Clara CKM"; CStr "RN"; CNull; CStr "x"; CStr "y"].

Definition roster : list RosterSheet :=
  [mkSheet "20240301" [header; march5; april2; march9];
   mkSheet "20240401" [header; april2]].

Definition march5Clean : Row :=
  [CStr "AM"; CNull; CDate 1709596800000; CNull; CNull; CStr "J. Smith (am)";
   CNull; CNull].

Definition march9Clean : Row :=
  [CStr "N"; CStr "W3"; CDate 1709942400000; CStr "21:00"; CStr "07:00";
   CStr "Clara CKM"; CStr "RN"; CNull].

Definition cleaned : list RosterSheet :=
  [mkSheet "20240301" [firstn 8 header; march5Clean; march9Clean]].

Definition annClean : Row :=
  [CStr "PM"; CNull; CDate 1710028800000; CNull; CNull; CStr "ann lee";
   CNull; CNull].

Definition claraClean : Row :=
  [CStr "AM"; CNull; CDate 1710115200000; CNull; CNull; CStr "Clara Cheung";
   CNull; CNull].

(** A cleaned sheet whose names are still to be resolved. *)
Definition toResolve : list RosterSheet :=
  [mkSheet "20240301"
     [firstn 8 header; march5Clean; march9Clean; annClean; claraClean]].

(** A sheet of [n] data rows, all dated 5 March 2024, under a header. *)
Definition marchSheet (n : nat) : RosterSheet :=
  mkSheet "20240301" (header :: repeat march5 n).

End Sample.

(* ------------------------------------------------------------------ *)
(** ** The calendar arithmetic *)

Module DateFacts.

Lemma DayFromYear_succ y : DayFromYear (y + 1) = DayFromYear y + DaysInYear y.
Proof.
  unfold DayFromYear, DaysInYear.
  destruct (Z.eqb_spec (y mod 4) 0); destruct (Z.eqb_spec (y mod 100) 0);
    destruct (Z.eqb_spec (y mod 400) 0); cbn [negb];
    Z.to_euclidean_division_equations; lia.
Qed.

Lemma DayFromYear_mono y1 y2 : y1 < y2 -> DayFromYear y1 < DayFromYear y2.
Proof. unfold DayFromYear. intros. Z.to_euclidean_division_equations. lia. Qed.

Lemma YearFromDay_spec day :
  DayFromYear (YearFromDay day) <= day < DayFromYear (YearFromDay day + 1).
Proof.
  unfold YearFromDay.
  destruct (Z.leb_spec (DayFromYear (1970 + 400 * day / 146097 + 1)) day);
    [| destruct (Z.leb_spec (DayFromYear (1970 + 400 * day / 146097)) day)];
    unfold DayFromYear in *; Z.to_euclidean_division_equations; lia.
Qed.

(** [YearFromDay] is the year of the specification: the only [y] whose
    first day is not after [day] while the next year's is. *)
Lemma YearFromDay_unique day y :
  DayFromYear y <= day < DayFromYear (y + 1) -> YearFromDay day = y.
Proof.
  intros Hy. pose proof (YearFromDay_spec day) as Hs.
  destruct (Z.lt_trichotomy (YearFromDay day) y) as [Hlt | [Heq | Hgt]]; auto.
  - assert (YearFromDay day + 1 <= y) as Hle by lia.
    destruct (Z.eq_dec (YearFromDay day + 1) y) as [E | NE].
    + rewrite E in Hs. lia.
    + pose proof (DayFromYear_mono (YearFromDay day + 1) y). lia.
  - destruct (Z.eq_dec (y + 1) (YearFromDay day)) as [E | NE].
    + rewrite <- E in Hs. lia.
    + pose proof (DayFromYear_mono (y + 1) (YearFromDay day)). lia.
Qed.

Lemma LeapOfYear_cases y :
  (LeapOfYear y = 0 /\ DaysInYear y = 365) \/ (LeapOfYear y = 1 /\ DaysInYear y = 366).
Proof.
  unfold LeapOfYear, DaysInYear.
  destruct (negb (y mod 4 =? 0)); [left; split; reflexivity |].
  destruct (negb (y mod 100 =? 0)); [right; split; reflexivity |].
  destruct (negb (y mod 400 =? 0)); [left | right]; split; reflexivity.
Qed.

Lemma Day_MakeDate day : Day (MakeDate day (MakeTime 0 0 0 0)) = day.
Proof.
  unfold Day, MakeDate, MakeTime, msPerDay. rewrite Z.add_0_r.
  apply Z.div_mul. discriminate.
Qed.

(** A real date lies inside its year. *)
Lemma calendar_day_in_year y m d :
  isCalendarDate y m d ->
  MakeDay y (m - 1) d = DayFromYear y + monthStart (m - 1) (LeapOfYear y) + d - 1 /\
  0 <= monthStart (m - 1) (LeapOfYear y) + d - 1 < DaysInYear y.
Proof.
  intros [Hm Hd]. unfold MakeDay.
  assert ((m - 1) / 12 = 0) as -> by (apply Z.div_small; lia).
  assert ((m - 1) mod 12 = m - 1) as -> by (apply Z.mod_small; lia).
  rewrite Z.add_0_r. split; [reflexivity |].
  remember (m - 1) as mn eqn:Hmn.
  assert (mn = 0 \/ mn = 1 \/ mn = 2 \/ mn = 3 \/ mn = 4 \/ mn = 5 \/ mn = 6 \/
          mn = 7 \/ mn = 8 \/ mn = 9 \/ mn = 10 \/ mn = 11) as Hcases by lia.
  clear Hmn Hm.
  destruct (LeapOfYear_cases y) as [[Hl Hy] | [Hl Hy]]; rewrite Hl, Hy in *;
    repeat (destruct Hcases as [-> | Hcases]); try subst mn;
    cbv beta iota delta [monthStart DaysInMonth] in Hd |- *; lia.
Qed.

(** The day number of a real date reads back as that date. *)
Lemma calendar_round_trip y m d :
  isCalendarDate y m d ->
  let t := MakeDate (MakeDay y (m - 1) d) (MakeTime 0 0 0 0) in
  YearFromTime t = y /\ MonthFromTime t + 1 = m /\ DateFromTime t = d.
Proof.
  intros Hreal t.
  destruct (calendar_day_in_year y m d Hreal) as [Hday Hin].
  assert (YearFromTime t = y) as Hyear.
  { unfold YearFromTime, t. rewrite Day_MakeDate. apply YearFromDay_unique.
    rewrite Hday, DayFromYear_succ. lia. }
  assert (DayWithinYear t = monthStart (m - 1) (LeapOfYear y) + d - 1) as Hwithin.
  { unfold DayWithinYear. rewrite Hyear. unfold t. rewrite Day_MakeDate. lia. }
  split; [exact Hyear |].
  destruct Hreal as [Hm Hd].
  unfold DateFromTime, MonthFromTime, InLeapYear.
  rewrite Hwithin, Hyear.
  remember (m - 1) as mn eqn:Hmn.
  assert (mn = 0 \/ mn = 1 \/ mn = 2 \/ mn = 3 \/ mn = 4 \/ mn = 5 \/ mn = 6 \/
          mn = 7 \/ mn = 8 \/ mn = 9 \/ mn = 10 \/ mn = 11) as Hcases by lia.
  assert (m = mn + 1) as Hm1 by lia. clear Hmn Hm. subst m.
  destruct (LeapOfYear_cases y) as [[Hl _] | [Hl _]]; rewrite Hl in *;
    repeat (destruct Hcases as [-> | Hcases]); try subst mn;
    cbv beta iota delta [monthStart DaysInMonth] in Hd |- *;
    repeat match goal with
           | |- context [?a <? ?b] => destruct (Z.ltb_spec a b); try lia
           end;
    cbv beta iota; lia.
Qed.

End DateFacts.

(* ------------------------------------------------------------------ *)
(** ** DateParser: [parseYMD] *)

Section ParseYMD.
Context {host : Host}.

Lemma LocalTime_UTC t : LocalTime (UTC t) = t.
Proof. unfold LocalTime, UTC. lia. Qed.

Lemma newDate_in_range y m d :
  Z.abs (UTC (localMidnight y m d)) <= 8640000000000000 ->
  newDate (Some y) (Some (m - 1)) (Some d) = Some (UTC (localMidnight y m d)).
Proof.
  intros Hrange. unfold newDate, TimeClip, localMidnight, constructorYear in *.
  destruct (Z.leb_spec (Z.abs (UTC (MakeDate
    (MakeDay (if (0 <=? y) && (y <=? 99) then 1900 + y else y) (m - 1) d)
    (MakeTime 0 0 0 0)))) 8640000000000000); [reflexivity | lia].
Qed.

Lemma parseComponents_three str p0 p1 p2 y m d :
  split isDateSeparator str = [p0; p1; p2] ->
  parseInt p0 = Some y -> parseInt p1 = Some m -> parseInt p2 = Some d ->
  parseComponents str = newDate (Some y) (Some (m - 1)) (Some d).
Proof.
  intros Hs H0 H1 H2. unfold parseComponents. rewrite Hs, H0, H1, H2. reflexivity.
Qed.

(** Whatever the host, within a day of UTC: "2023/02/29" is 1 March 2023. *)
Lemma parseYMD_feb_29_2023_any_host :
  Z.abs localTZA <= msPerDay ->
  parseYMD (CStr "2023/02/29") = Some (UTC 1677628800000) /\
  getFullYear (UTC 1677628800000) = 2023 /\
  getMonth (UTC 1677628800000) + 1 = 3 /\
  getDate (UTC 1677628800000) = 1.
Proof.
  intros Hzone. split.
  - unfold parseYMD. cbn [falsy toStr String.eqb].
    change (trim "2023/02/29") with "2023/02/29".
    rewrite (parseComponents_three "2023/02/29" "2023" "02" "29" 2023 2 29
               eq_refl eq_refl eq_refl eq_refl).
    rewrite newDate_in_range; [reflexivity |].
    change (localMidnight 2023 2 29) with 1677628800000.
    unfold UTC, msPerDay in *. lia.
  - unfold getFullYear, getMonth, getDate. rewrite LocalTime_UTC.
    vm_compute. repeat split.
Qed.

(** C1, as the code has it.  A date string whose trimmed text splits on '/'
    or '-' into exactly three components that [parseInt] reads as y, m, d,
    and whose date lies within the range of Date, is never refused:
    [parseYMD] returns the date [new Date(y, m - 1, d)].  When (year, m, d)
    is a real calendar date, the year being y with 0..99 counted from 1900,
    the date's year, month and day are those components; components that
    form no real date are carried over by the constructor instead of being
    rejected. *)
Theorem parseYMD_three_components (s p0 p1 p2 : string) (y m d : Z) :
  split isDateSeparator (trim s) = [p0; p1; p2] ->
  parseInt p0 = Some y -> parseInt p1 = Some m -> parseInt p2 = Some d ->
  Z.abs (UTC (localMidnight y m d)) <= 8640000000000000 ->
  parseYMD (CStr s) = Some (UTC (localMidnight y m d)) /\
  (isCalendarDate (constructorYear y) m d ->
   getFullYear (UTC (localMidnight y m d)) = constructorYear y /\
   getMonth (UTC (localMidnight y m d)) + 1 = m /\
   getDate (UTC (localMidnight y m d)) = d).
Proof.
  intros Hs H0 H1 H2 Hrange. split.
  - unfold parseYMD, falsy.
    destruct (String.eqb_spec s EmptyString) as [-> | _]; [discriminate Hs |].
    cbn [toStr].
    rewrite (parseComponents_three _ _ _ _ _ _ _ Hs H0 H1 H2).
    rewrite (newDate_in_range _ _ _ Hrange). reflexivity.
  - intros Hreal. unfold getFullYear, getMonth, getDate.
    rewrite LocalTime_UTC. unfold localMidnight.
    apply DateFacts.calendar_round_trip. exact Hreal.
Qed.

End ParseYMD.

(** "2024/02/29" parses, to 29 February 2024. *)
Lemma parseYMD_three_components_witness :
  parseYMD (host := utcHost) (CStr "2024/02/29") = Some 1709164800000 /\
  getFullYear (host := utcHost) 1709164800000 = 2024 /\
  getMonth (host := utcHost) 1709164800000 + 1 = 2 /\
  getDate (host := utcHost) 1709164800000 = 29.
Proof.
  destruct (parseYMD_three_components (host := utcHost)
              "2024/02/29" "2024" "02" "29" 2024 2 29
              eq_refl eq_refl eq_refl eq_refl) as [Hparse Hfields].
  - vm_compute. discriminate.
  - split; [exact Hparse |].
    apply Hfields. vm_compute. repeat split; discriminate.
Defined.

(** Month 13 is January of the next year, and year 24 is 1924. *)
Example parseYMD_month_13_and_short_year :
  option_map (fun t => (getFullYear (host := utcHost) t,
                        getMonth (host := utcHost) t + 1,
                        getDate (host := utcHost) t))
             (parseYMD (host := utcHost) (CStr "2024-13-01")) = Some (2025, 1, 1) /\
  option_map (fun t => (getFullYear (host := utcHost) t,
                        getMonth (host := utcHost) t + 1,
                        getDate (host := utcHost) t))
             (parseYMD (host := utcHost) (CStr " 24/3/5 ")) = Some (1924, 3, 5) /\
  parseYMD (host := utcHost) (CStr "2024/xx/05") = None /\
  parseYMD (host := utcHost) (CStr "") = None /\
  parseYMD (host := utcHost) CNull = None.
Proof. vm_compute. repeat split. Qed.

(** C1 as the spec states it fails: "2023/02/29" is not refused; it parses,
    to 1 March 2023. *)
Lemma parseYMD_rolls_over_invalid_day :
  parseYMD (host := utcHost) (CStr "2023/02/29") = Some 1677628800000 /\
  getFullYear (host := utcHost) 1677628800000 = 2023 /\
  getMonth (host := utcHost) 1677628800000 + 1 = 3 /\
  getDate (host := utcHost) 1677628800000 = 1.
Proof. vm_compute. repeat split. Qed.

(* ------------------------------------------------------------------ *)
(** ** SheetLoader: the tabs [parseExcel] reads *)

Lemma existsb_filter_nonempty {A} (p : A -> bool) (l : list A) :
  existsb p l = true <-> filter p l <> [].
Proof.
  induction l as [| x l IH]; cbn.
  - split; [discriminate | congruence].
  - destruct (p x); cbn; [split; [discriminate | reflexivity] | exact IH].
Qed.

(** C7.  When the file is not a CSV and some tab is a roster tab, exactly the
    roster tabs are read, in their order; for a CSV, or when no tab is a
    roster tab, all tabs are read.  A roster tab is one whose trimmed name
    is eight decimal digits. *)
Theorem targetSheetNames_policy (fileName : string) (SheetNames : list string) :
  let isCsv := endsWith (toLowerCase fileName) ".csv" in
  let rosterTabs := filter isRosterTab SheetNames in
  (isCsv = false /\ rosterTabs <> [] ->
   targetSheetNames fileName SheetNames = rosterTabs) /\
  (isCsv = true \/ rosterTabs = [] ->
   targetSheetNames fileName SheetNames = SheetNames) /\
  (forall tab,
     isRosterTab tab = true <->
     String.length (trim tab) = 8%nat /\
     Forall (fun c => isDigit c = true) (list_ascii_of_string (trim tab))).
Proof.
  cbv zeta. unfold targetSheetNames. repeat split.
  - intros [Hcsv Hsome]. rewrite Hcsv.
    apply existsb_filter_nonempty in Hsome. rewrite Hsome. reflexivity.
  - intros [Hcsv | Hnone].
    + rewrite Hcsv, andb_false_r. reflexivity.
    + destruct (existsb isRosterTab SheetNames) eqn:E; [| reflexivity].
      apply existsb_filter_nonempty in E. contradiction.
  - unfold isRosterTab, rosterTabPattern in H.
    apply andb_prop in H. apply Nat.eqb_eq. apply H.
  - unfold isRosterTab, rosterTabPattern in H.
    apply andb_prop in H. apply Forall_forall. apply forallb_forall. apply H.
  - intros [Hlen Hdig]. unfold isRosterTab, rosterTabPattern.
    apply andb_true_intro. split.
    + apply Nat.eqb_eq. exact Hlen.
    + apply forallb_forall. apply Forall_forall. exact Hdig.
Qed.

(** The tabs of the end-to-end scenario, with a legend tab that is dropped;
    a CSV keeps its one tab whatever its name. *)
Example targetSheetNames_examples :
  targetSheetNames "roster.xlsx" ["20240301"; "Legend"; " 20240401 "]
    = ["20240301"; " 20240401 "] /\
  targetSheetNames "Staff.CSV" ["20240301"; "Legend"] = ["20240301"; "Legend"] /\
  targetSheetNames "staff.xlsx" ["Sheet1"; "2024-03-01"] = ["Sheet1"; "2024-03-01"].
Proof. repeat split. Qed.

(* ------------------------------------------------------------------ *)
(** ** Callbacks with an index *)

Module ArrayFacts.

Section Generic.
Context {A B : Type}.

Lemma mapFrom_length (f : A -> nat -> B) l i :
  List.length (mapFrom i f l) = List.length l.
Proof. revert i. induction l; intros; cbn; [| rewrite IHl]; reflexivity. Qed.

Lemma mapFrom_nth (f : A -> nat -> B) l i n da db :
  (n < List.length l)%nat ->
  nth n (mapFrom i f l) db = f (nth n l da) (i + n)%nat.
Proof.
  revert i n. induction l as [| x l IH]; intros i n Hn; cbn in Hn; [lia |].
  destruct n as [| n]; cbn.
  - rewrite Nat.add_0_r. reflexivity.
  - rewrite (IH (S i) n) by lia. f_equal. lia.
Qed.

Lemma mapFrom_In (f : A -> nat -> B) l i y :
  In y (mapFrom i f l) ->
  exists x n, In x l /\ (i <= n)%nat /\ y = f x n.
Proof.
  revert i. induction l as [| x l IH]; intros i Hy; cbn in Hy; [contradiction |].
  destruct Hy as [<- | Hy].
  - exists x, i. cbn. auto.
  - destruct (IH _ Hy) as (x' & n & Hin & Hle & ->).
    exists x', n. cbn. repeat split; auto. lia.
Qed.

End Generic.

Lemma filterFrom_In {A} (p : A -> nat -> bool) l i x :
  In x (filterFrom i p l) ->
  exists n, In x l /\ (i <= n)%nat /\ p x n = true.
Proof.
  revert i. induction l as [| y l IH]; intros i Hx; cbn in Hx; [contradiction |].
  destruct (p y i) eqn:E.
  - destruct Hx as [<- | Hx].
    + exists i. cbn. auto.
    + destruct (IH _ Hx) as (n & Hin & Hle & Hp). exists n. cbn. repeat split; auto. lia.
  - destruct (IH _ Hx) as (n & Hin & Hle & Hp). exists n. cbn. repeat split; auto. lia.
Qed.

Lemma filterFrom_length {A} (p : A -> nat -> bool) l i :
  (List.length (filterFrom i p l) <= List.length l)%nat.
Proof.
  revert i. induction l as [| y l IH]; intros i; cbn; [lia |].
  destruct (p y i); cbn; specialize (IH (S i)); lia.
Qed.

Lemma set_length (row : Row) i v :
  (i < List.length row)%nat -> List.length (set row i v) = List.length row.
Proof.
  revert i. induction row as [| c row IH]; intros i Hi; cbn in Hi; [lia |].
  destruct i; cbn; [reflexivity |]. rewrite IH by lia. reflexivity.
Qed.

Lemma get_set_same (row : Row) i v : get (set row i v) i = v.
Proof.
  unfold get. revert row. induction i as [| i IH]; intros [| c row]; cbn; auto.
Qed.

Lemma get_set_other (row : Row) i j v :
  (i < List.length row)%nat -> j <> i -> get (set row i v) j = get row j.
Proof.
  unfold get. revert i j. induction row as [| c row IH]; intros i j Hi Hj; cbn in Hi; [lia |].
  destruct i, j; cbn; try congruence; try reflexivity.
  apply IH; [lia | congruence].
Qed.

Lemma get_in_range (row : Row) i :
  get row i <> CUndefined -> (i < List.length row)%nat.
Proof.
  unfold get. intros H. destruct (Nat.lt_ge_cases i (List.length row)); [assumption |].
  rewrite nth_overflow in H by assumption. congruence.
Qed.

Lemma map_nth_lt {A B} (f : A -> B) l n da db :
  (n < List.length l)%nat -> nth n (map f l) db = f (nth n l da).
Proof.
  revert n. induction l as [| x l IH]; intros n Hn; cbn in Hn; [lia |].
  destruct n; cbn; [reflexivity | apply IH; lia].
Qed.

Lemma slice0_In {A} n (l : list A) x : In x (slice0 n l) -> In x l.
Proof.
  unfold slice0. revert l. induction n as [| n IH]; intros [| y l] Hx; cbn in Hx;
    try contradiction.
  destruct Hx as [<- | Hx]; [left; reflexivity | right; apply IH; exact Hx].
Qed.

End ArrayFacts.

(* ------------------------------------------------------------------ *)
(** ** RosterCleaner: [cleanRosterData] *)

Section Cleaner.
Context {host : Host}.

Lemma padLoop_closed fuel (l : Row) :
  (8 - List.length l <= fuel)%nat ->
  padLoop fuel l = (l ++ repeat CNull (8 - List.length l))%list.
Proof.
  revert l. induction fuel as [| fuel IH]; intros l Hfuel; cbn [padLoop].
  - replace (8 - List.length l)%nat with 0%nat by lia. cbn. now rewrite app_nil_r.
  - destruct (Nat.ltb_spec (List.length l) 8) as [Hlt | Hge].
    + rewrite IH by (rewrite length_app; cbn [List.length]; lia).
      rewrite length_app. cbn [List.length].
      replace (8 - List.length l)%nat with (S (8 - (List.length l + 1)))%nat by lia.
      cbn [repeat]. rewrite <- app_assoc. reflexivity.
    + replace (8 - List.length l)%nat with 0%nat by lia. cbn. now rewrite app_nil_r.
Qed.

Lemma truncated_length (row : Row) :
  List.length (padLoop 8 (slice0 8 row)) = 8%nat.
Proof.
  rewrite padLoop_closed by lia.
  rewrite length_app, repeat_length. unfold slice0. rewrite length_firstn. lia.
Qed.

Lemma truncated_get (row : Row) j :
  (j < 8)%nat -> get (padLoop 8 (slice0 8 row)) j = paddedCell row j.
Proof.
  intros Hj. rewrite padLoop_closed by lia. unfold get, paddedCell, slice0.
  rewrite length_firstn.
  destruct (Nat.ltb_spec j (List.length row)) as [Hin | Hout].
  - rewrite app_nth1 by (rewrite length_firstn; lia).
    rewrite nth_firstn. destruct (Nat.ltb_spec j 8); [reflexivity | lia].
  - rewrite app_nth2 by (rewrite length_firstn; lia).
    rewrite length_firstn. apply nth_repeat_lt. lia.
Qed.

Lemma finalizeRow_length row rIdx : List.length (finalizeRow row rIdx) = 8%nat.
Proof.
  unfold finalizeRow.
  destruct ((0 <? rIdx)%nat && negb (falsy (get (padLoop 8 (slice0 8 row)) 2)));
    [| apply truncated_length].
  destruct (parseYMD (get (padLoop 8 (slice0 8 row)) 2)); [| apply truncated_length].
  rewrite ArrayFacts.set_length; rewrite truncated_length; lia.
Qed.

Lemma finalizeRow_other row rIdx j :
  (j < 8)%nat -> j <> 2%nat -> get (finalizeRow row rIdx) j = paddedCell row j.
Proof.
  intros Hj Hne. unfold finalizeRow.
  destruct ((0 <? rIdx)%nat && negb (falsy (get (padLoop 8 (slice0 8 row)) 2)));
    [| apply truncated_get; assumption].
  destruct (parseYMD (get (padLoop 8 (slice0 8 row)) 2));
    [| apply truncated_get; assumption].
  rewrite ArrayFacts.get_set_other; [apply truncated_get; assumption | | assumption].
  rewrite truncated_length. lia.
Qed.

Lemma finalizeRow_header row : finalizeRow row 0 = padLoop 8 (slice0 8 row).
Proof. reflexivity. Qed.

(** A cell that [parseYMD] accepts is truthy and is really in the row. *)
Lemma parseYMD_some_truthy val d :
  parseYMD val = Some d -> falsy val = false /\ val <> CUndefined.
Proof.
  destruct val; cbn; intros H; try discriminate; split; try congruence;
    try reflexivity.
  - destruct (String.eqb s EmptyString); [discriminate | reflexivity].
  - destruct (n =? 0); [discriminate | reflexivity].
Qed.

Lemma finalizeRow_date row rIdx d :
  (0 < rIdx)%nat -> parseYMD (get row 2) = Some d ->
  get (finalizeRow row rIdx) 2 = CDate d.
Proof.
  intros Hidx Hparse.
  destruct (parseYMD_some_truthy _ _ Hparse) as [Htruthy Hdef].
  assert (get (padLoop 8 (slice0 8 row)) 2 = get row 2) as Hcell.
  { rewrite truncated_get by lia. unfold paddedCell.
    apply ArrayFacts.get_in_range in Hdef.
    destruct (Nat.ltb_spec 2 (List.length row)); [reflexivity | lia]. }
  unfold finalizeRow. rewrite Hcell, Htruthy, Hparse.
  destruct (Nat.ltb_spec 0 rIdx); [| lia]. cbn [andb negb].
  apply ArrayFacts.get_set_same.
Qed.

(** The rows of a cleaned sheet: the finalized header, then the finalized
    data rows that passed the month filter. *)
Lemma cleanSheet_data majorityMonth sheet :
  data (cleanSheet majorityMonth sheet) =
  match slice0 72 (data sheet) with
  | [] => []
  | header :: rows =>
      finalizeRow header 0 ::
      mapFrom 1 finalizeRow (filterFrom 1 (keepRow majorityMonth) rows)
  end.
Proof.
  unfold cleanSheet. cbn [data]. destruct (slice0 72 (data sheet)); reflexivity.
Qed.

Lemma cleanRosterData_In sheets majorityMonth sheet :
  In sheet (cleanRosterData sheets majorityMonth) <->
  exists input, In input sheets /\ sheet = cleanSheet majorityMonth input /\
                (1 < List.length (data sheet))%nat.
Proof.
  unfold cleanRosterData. rewrite filter_In, in_map_iff. split.
  - intros [(input & <- & Hin) Hlen]. exists input. repeat split; auto.
    now apply Nat.ltb_lt.
  - intros (input & Hin & -> & Hlen). split; [exists input; auto |].
    now apply Nat.ltb_lt.
Qed.

(** Every row of a cleaned sheet is the finalized form of a row of the
    first 72 of its source. *)
Lemma cleanSheet_row_source majorityMonth sheet row :
  In row (data (cleanSheet majorityMonth sheet)) ->
  exists src rIdx, In src (slice0 72 (data sheet)) /\ row = finalizeRow src rIdx.
Proof.
  unfold cleanSheet. cbn [data]. intros Hrow.
  apply ArrayFacts.mapFrom_In in Hrow. destruct Hrow as (src & n & Hsrc & _ & ->).
  apply ArrayFacts.filterFrom_In in Hsrc. destruct Hsrc as (k & Hsrc & _).
  exists src, n. split; [exact Hsrc | reflexivity].
Qed.

End Cleaner.

Section CleanerClaims.
Context {host : Host}.

Lemma cleanSheet_first72 majorityMonth sheet :
  cleanSheet majorityMonth (first72 sheet) = cleanSheet majorityMonth sheet.
Proof.
  unfold cleanSheet, first72, slice0. cbn [data name].
  rewrite firstn_firstn. reflexivity.
Qed.

Lemma cleanSheet_length majorityMonth sheet :
  (List.length (data (cleanSheet majorityMonth sheet)) <= 72)%nat.
Proof.
  unfold cleanSheet, mapi, filteri, slice0. cbn [data].
  rewrite ArrayFacts.mapFrom_length.
  pose proof (ArrayFacts.filterFrom_length (keepRow majorityMonth)
                (firstn 72 (data sheet)) 0) as Hle.
  rewrite length_firstn in Hle. lia.
Qed.

(** C4.  The month filter runs on the first 72 rows only: the result is that
    of the workbook cut to 72 rows per sheet, so no row at index 72 or
    beyond, whatever its date, reaches the output; a cleaned sheet has at
    most 72 rows, the header and up to 71 data rows. *)
Theorem cleanRosterData_truncates_before_filter
    (sheets : list RosterSheet) (majorityMonth : string) :
  cleanRosterData sheets majorityMonth =
    cleanRosterData (map first72 sheets) majorityMonth /\
  (forall sheet,
     data (cleanSheet majorityMonth sheet) =
       mapi finalizeRow
         (filteri (keepRow majorityMonth) (slice0 72 (data sheet)))) /\
  (forall nm rows beyond,
     List.length rows = 72%nat ->
     cleanSheet majorityMonth (mkSheet nm (rows ++ beyond)) =
       cleanSheet majorityMonth (mkSheet nm rows)) /\
  Forall (fun sheet => (List.length (data sheet) <= 72)%nat)
         (cleanRosterData sheets majorityMonth).
Proof.
  repeat split.
  - unfold cleanRosterData. rewrite map_map. f_equal. apply map_ext.
    intros sheet. symmetry. apply cleanSheet_first72.
  - intros nm rows beyond Hlen. unfold cleanSheet, slice0. cbn [data name].
    rewrite firstn_app, Hlen, Nat.sub_diag, firstn_O, app_nil_r.
    reflexivity.
  - apply Forall_forall. intros sheet Hin.
    apply cleanRosterData_In in Hin. destruct Hin as (input & _ & -> & _).
    apply cleanSheet_length.
Qed.

Lemma finalizeRow_cell2 row rIdx :
  get (finalizeRow row rIdx) 2 = paddedCell row 2 \/
  exists d, parseYMD (get row 2) = Some d /\ get (finalizeRow row rIdx) 2 = CDate d.
Proof.
  unfold finalizeRow.
  destruct ((0 <? rIdx)%nat && negb (falsy (get (padLoop 8 (slice0 8 row)) 2)));
    [| left; apply truncated_get; lia].
  destruct (parseYMD (get (padLoop 8 (slice0 8 row)) 2)) as [d |] eqn:Hparse;
    [| left; apply truncated_get; lia].
  right. exists d. split; [| apply ArrayFacts.get_set_same].
  rewrite truncated_get in Hparse by lia. unfold paddedCell in Hparse.
  destruct (Nat.ltb_spec 2 (List.length row)); [exact Hparse |].
  cbn in Hparse. discriminate.
Qed.

(** C8.  Every row of every sheet that [cleanRosterData] returns has exactly
    eight cells.  It comes from a row of the input sheet of the same name:
    at positions 0-7 other than 2 it holds that row's cell, or null where
    the row was shorter; position 2 holds that cell too, or the date it
    parses to. *)
Theorem cleanRosterData_rows_have_8_cells
    (sheets : list RosterSheet) (majorityMonth : string)
    (sheet : RosterSheet) (row : Row) :
  In sheet (cleanRosterData sheets majorityMonth) ->
  In row (data sheet) ->
  List.length row = 8%nat /\
  exists input src,
    In input sheets /\ name input = name sheet /\ In src (data input) /\
    (forall j, (j < 8)%nat -> j <> 2%nat -> get row j = paddedCell src j) /\
    (get row 2 = paddedCell src 2 \/
     exists d, parseYMD (get src 2) = Some d /\ get row 2 = CDate d).
Proof.
  intros Hsheet Hrow.
  apply cleanRosterData_In in Hsheet. destruct Hsheet as (input & Hin & -> & _).
  apply cleanSheet_row_source in Hrow. destruct Hrow as (src & rIdx & Hsrc & ->).
  split; [apply finalizeRow_length |].
  exists input, src. repeat split.
  - exact Hin.
  - eapply ArrayFacts.slice0_In. exact Hsrc.
  - intros j Hj Hne. apply finalizeRow_other; assumption.
  - apply finalizeRow_cell2.
Qed.

Lemma survivors_dated majorityMonth rows row :
  In row (mapFrom 1 finalizeRow (filterFrom 1 (keepRow majorityMonth) rows)) ->
  exists d, get row 2 = CDate d /\ monthKey d = majorityMonth.
Proof.
  intros Hrow.
  apply ArrayFacts.mapFrom_In in Hrow. destruct Hrow as (src & rIdx & Hsrc & Hidx & ->).
  apply ArrayFacts.filterFrom_In in Hsrc. destruct Hsrc as (index & _ & Hindex & Hkeep).
  unfold keepRow in Hkeep.
  destruct (Nat.eqb_spec index 0) as [-> | _]; [lia |].
  destruct (parseYMD (get src 2)) as [d |] eqn:Hparse; [| discriminate].
  exists d. split; [apply finalizeRow_date; [lia | exact Hparse] |].
  now apply String.eqb_eq.
Qed.

(** C9.  In a sheet that [cleanRosterData] returns, the first row is the
    header of the input cut or padded to eight cells, its position 2 not
    rewritten; at least one data row follows, and position 2 of every data
    row is a Date whose month key is the target.  A sheet of the input is
    present in the result exactly when one of its data rows (among the first
    72 rows) passes the month filter. *)
Theorem cleanRosterData_dates_and_empty_sheets
    (sheets : list RosterSheet) (majorityMonth : string) :
  (forall sheet,
     In sheet (cleanRosterData sheets majorityMonth) ->
     exists input header rest rows,
       In input sheets /\ sheet = cleanSheet majorityMonth input /\
       slice0 72 (data input) = header :: rest /\
       data sheet = padLoop 8 (slice0 8 header) :: rows /\
       get (padLoop 8 (slice0 8 header)) 2 = paddedCell header 2 /\
       rows <> [] /\
       Forall (fun row => exists d, get row 2 = CDate d /\
                                    monthKey d = majorityMonth) rows) /\
  (forall input,
     In input sheets ->
     (In (cleanSheet majorityMonth input) (cleanRosterData sheets majorityMonth) <->
      filterFrom 1 (keepRow majorityMonth) (tl (slice0 72 (data input))) <> [])).
Proof.
  split.
  - intros sheet Hsheet.
    apply cleanRosterData_In in Hsheet. destruct Hsheet as (input & Hin & -> & Hlen).
    rewrite cleanSheet_data in Hlen |- *.
    destruct (slice0 72 (data input)) as [| header rest] eqn:Hrows;
      [cbn in Hlen; lia |].
    exists input, header, rest,
      (mapFrom 1 finalizeRow (filterFrom 1 (keepRow majorityMonth) rest)).
    repeat split; auto.
    + apply truncated_get. lia.
    + intros Hnil. rewrite Hnil in Hlen. cbn in Hlen. lia.
    + apply Forall_forall. intros row Hrow. eapply survivors_dated. exact Hrow.
  - intros input Hin. rewrite cleanRosterData_In. split.
    + intros (input' & _ & _ & Hlen). rewrite cleanSheet_data in Hlen.
      destruct (slice0 72 (data input)) as [| header rest]; [cbn in Hlen; lia |].
      cbn [tl List.length] in *. rewrite ArrayFacts.mapFrom_length in Hlen.
      intros Hnil. rewrite Hnil in Hlen. cbn in Hlen. lia.
    + intros Hsome. exists input. repeat split; auto.
      rewrite cleanSheet_data.
      destruct (slice0 72 (data input)) as [| header rest]; [now contradict Hsome |].
      cbn [tl List.length] in *. rewrite ArrayFacts.mapFrom_length.
      destruct (filterFrom 1 (keepRow majorityMonth) rest); [congruence | cbn; lia].
Qed.

End CleanerClaims.

(** The sample workbook cleaned for March 2024: April's row and April's tab
    are gone, rows have eight cells, dates are Dates. *)
Example cleanRosterData_sample :
  findMajorityMonth (host := utcHost) Sample.roster = Some "2024-03" /\
  cleanRosterData (host := utcHost) Sample.roster "2024-03" = Sample.cleaned.
Proof. vm_compute. split; reflexivity. Qed.

(** Eighty data rows of the target month: 71 of them are kept. *)
Example cleanRosterData_80_rows :
  map (fun sheet => List.length (data sheet))
      (cleanRosterData (host := utcHost) [Sample.marchSheet 80] "2024-03") = [72%nat].
Proof. vm_compute. reflexivity. Qed.

(** Nine rows of the target month at indices 72..80, behind 71 rows of
    another month: none is kept and the sheet is dropped. *)
Example cleanRosterData_rows_beyond_72 :
  cleanRosterData (host := utcHost)
    [mkSheet "20240301"
       (Sample.header :: repeat Sample.april2 71 ++ repeat Sample.march5 9)]
    "2024-03" = [].
Proof. vm_compute. reflexivity. Qed.

Lemma cleanRosterData_rows_have_8_cells_witness :
  List.length Sample.march5Clean = 8%nat /\
  exists input src,
    In input Sample.roster /\ name input = "20240301" /\ In src (data input) /\
    (forall j, (j < 8)%nat -> j <> 2%nat ->
               get Sample.march5Clean j = paddedCell src j) /\
    (get Sample.march5Clean 2 = paddedCell src 2 \/
     exists d, parseYMD (host := utcHost) (get src 2) = Some d /\
               get Sample.march5Clean 2 = CDate d).
Proof.
  apply (cleanRosterData_rows_have_8_cells (host := utcHost)
           Sample.roster "2024-03"
           (mkSheet "20240301" [firstn 8 Sample.header; Sample.march5Clean;
                                Sample.march9Clean])).
  - vm_compute. left. reflexivity.
  - right. left. reflexivity.
Defined.

(* ------------------------------------------------------------------ *)
(** ** NameResolver: [updateNames] *)

Section Resolver.
Context {host : Host}.

Lemma staffFullNames_nonempty staffList sn :
  In sn (staffFullNames staffList) -> sn <> EmptyString.
Proof.
  unfold staffFullNames. intros Hin. apply filter_In in Hin.
  destruct Hin as [_ Hlen]. intros ->. cbn in Hlen. discriminate.
Qed.

Lemma truthy_find (p : string -> bool) staff :
  (forall sn, In sn staff -> sn <> EmptyString) ->
  truthy (find p staff) = find p staff.
Proof.
  intros Hne. destruct (find p staff) as [sn |] eqn:Hfind; [| reflexivity].
  apply find_some in Hfind. destruct Hfind as [Hin _].
  cbn. destruct (String.eqb_spec sn EmptyString) as [-> | _]; [| reflexivity].
  now apply Hne in Hin.
Qed.

(** What [updateRow] does to a data row whose name cell is present and
    cleans to a non-empty name. *)
Lemma updateRow_resolution staff row rIdx :
  (forall sn, In sn staff -> sn <> EmptyString) ->
  (0 < rIdx)%nat ->
  get row 5 <> CNull -> get row 5 <> CUndefined ->
  cleanName (get row 5) <> EmptyString ->
  updateRow staff row rIdx =
  match resolution staff (toLowerCase (cleanName (get row 5))) with
  | Some m => set row 5 (CStr m)
  | None => row
  end.
Proof.
  intros Hne Hidx Hnull Hundef Hclean.
  unfold updateRow, resolution, genericMatch, aliasMatch.
  destruct (Nat.eqb_spec rIdx 0); [lia |].
  rewrite !truthy_find by assumption.
  destruct (String.eqb_spec (cleanName (get row 5)) EmptyString); [contradiction |].
  destruct (get row 5) eqn:Hcell; try contradiction;
    repeat match goal with
           | |- context [if ?b then _ else _] => destruct b
           | |- context [match find ?p ?l with _ => _ end] => destruct (find p l)
           end; reflexivity.
Qed.

(** An alias rule stays silent when the name is not its trigger or no staff
    name contains its target. *)
Lemma aliasMatch_none staff rosterNameLower trigger target :
  (forall sn, In sn staff -> sn <> EmptyString) ->
  (aliasMatch staff rosterNameLower trigger target = None <->
   rosterNameLower <> trigger \/
   forall sn, In sn staff -> includes (toLowerCase sn) target = false).
Proof.
  intros Hne. unfold aliasMatch. rewrite truthy_find by assumption.
  destruct (String.eqb_spec rosterNameLower trigger) as [-> | Hdiff].
  - split.
    + intros Hnone. right. apply find_none. exact Hnone.
    + intros [Hdiff | Hall]; [congruence |].
      destruct (find (fun sn => includes (toLowerCase sn) target) staff) as [sn |] eqn:E;
        [| reflexivity].
      apply find_some in E. destruct E as [Hin Hinc].
      rewrite (Hall sn Hin) in Hinc. discriminate.
  - split; [intros _; left; exact Hdiff | reflexivity].
Qed.

Lemma updateRow_header staff row : updateRow staff row 0 = row.
Proof. reflexivity. Qed.

Lemma updateRow_absent staff row rIdx :
  get row 5 = CNull \/ get row 5 = CUndefined -> updateRow staff row rIdx = row.
Proof.
  intros Hcell. unfold updateRow. destruct (rIdx =? 0)%nat; [reflexivity |].
  destruct Hcell as [-> | ->]; reflexivity.
Qed.

Lemma sameBut5_refl row : sameBut5 row row.
Proof. split; reflexivity. Qed.

Lemma sameBut5_set row v : get row 5 <> CUndefined -> sameBut5 row (set row 5 v).
Proof.
  intros Hcell. apply ArrayFacts.get_in_range in Hcell. split.
  - apply ArrayFacts.set_length. exact Hcell.
  - intros j Hj. apply ArrayFacts.get_set_other; assumption.
Qed.

Lemma updateRow_frame staff row rIdx : sameBut5 row (updateRow staff row rIdx).
Proof.
  unfold updateRow. destruct (rIdx =? 0)%nat; [apply sameBut5_refl |].
  destruct (get row 5) eqn:Hcell; try apply sameBut5_refl;
    repeat match goal with
           | |- sameBut5 _ (if ?b then _ else _) => destruct b
           | |- sameBut5 _ (match ?o with Some _ => _ | None => _ end) => destruct o
           end;
    try apply sameBut5_refl; apply sameBut5_set; rewrite Hcell; discriminate.
Qed.

Lemma updateNames_rowAt sheets staffList k i :
  (k < List.length sheets)%nat ->
  (i < List.length (data (nth k sheets (mkSheet EmptyString []))))%nat ->
  rowAt (updateNames sheets staffList) k i =
  updateRow (staffFullNames staffList) (rowAt sheets k i) i.
Proof.
  intros Hk Hi. unfold rowAt, updateNames.
  rewrite (ArrayFacts.map_nth_lt _ _ _ (mkSheet EmptyString [])) by exact Hk.
  cbn [data]. unfold mapi.
  rewrite (ArrayFacts.mapFrom_nth (updateRow (staffFullNames staffList))
             _ 0 i ([] : Row) ([] : Row)) by exact Hi.
  reflexivity.
Qed.

End Resolver.

Section ResolverClaims.
Context {host : Host}.

Lemma startsWith_refl s : startsWith s s = true.
Proof. induction s as [| c s IH]; cbn; [| rewrite Ascii.eqb_refl, IH]; reflexivity. Qed.

Lemma includes_refl s : includes s s = true.
Proof. destruct s; cbn; [reflexivity |]. now rewrite Ascii.eqb_refl, startsWith_refl. Qed.

Lemma find_none_iff {A} (p : A -> bool) l :
  find p l = None <-> forall x, In x l -> p x = false.
Proof.
  split; [apply find_none |].
  induction l as [| y l IH]; intros Hall; cbn; [reflexivity |].
  rewrite (Hall y) by (left; reflexivity). apply IH.
  intros x Hx. apply Hall. right. exact Hx.
Qed.

Lemma toLowerCase_empty s : toLowerCase s = EmptyString -> s = EmptyString.
Proof. destruct s; [reflexivity | discriminate]. Qed.

(** C2, as the code has it.  A data row whose name cell is present and
    cleans to a non-empty name that fires no alias rule and is contained in
    no staff name (so equals none either) is returned as it was: the name
    cell keeps its raw value, annotation included; the cleaned string is
    not written. *)
Theorem updateNames_unmatched_keeps_raw
    (sheets : list RosterSheet) (staffList : list Row) (k i : nat) :
  (k < List.length sheets)%nat ->
  (0 < i)%nat ->
  (i < List.length (data (nth k sheets (mkSheet EmptyString []))))%nat ->
  get (rowAt sheets k i) 5 <> CNull ->
  get (rowAt sheets k i) 5 <> CUndefined ->
  cleanName (get (rowAt sheets k i) 5) <> EmptyString ->
  aliasMatch (staffFullNames staffList)
    (toLowerCase (cleanName (get (rowAt sheets k i) 5)))
    "clara ckm" "clara cheung ka man" = None ->
  aliasMatch (staffFullNames staffList)
    (toLowerCase (cleanName (get (rowAt sheets k i) 5)))
    "clara cheung" "clara cheung wing kum" = None ->
  (forall sn, In sn (staffFullNames staffList) ->
     includes (toLowerCase sn)
       (toLowerCase (cleanName (get (rowAt sheets k i) 5))) = false) ->
  rowAt (updateNames sheets staffList) k i = rowAt sheets k i.
Proof.
  intros Hk Hi0 Hi Hnull Hundef Hclean Ha1 Ha2 Hnone.
  rewrite updateNames_rowAt by assumption.
  rewrite updateRow_resolution; try assumption;
    [| apply staffFullNames_nonempty].
  unfold resolution, genericMatch. rewrite Ha1, Ha2.
  replace (find (fun sn => String.eqb (toLowerCase sn)
             (toLowerCase (cleanName (get (rowAt sheets k i) 5))))
             (staffFullNames staffList)) with (@None string).
  - replace (find (fun sn => includes (toLowerCase sn)
               (toLowerCase (cleanName (get (rowAt sheets k i) 5))))
               (staffFullNames staffList)) with (@None string); [reflexivity |].
    symmetry. apply find_none_iff. exact Hnone.
  - symmetry. apply find_none_iff. intros sn Hin.
    destruct (String.eqb_spec (toLowerCase sn)
                (toLowerCase (cleanName (get (rowAt sheets k i) 5)))) as [E |];
      [| reflexivity].
    specialize (Hnone sn Hin). rewrite E, includes_refl in Hnone. discriminate.
Qed.

(** C5, as the code has it.  When no alias rule fires, a data row whose
    cleaned name equals a staff name without regard to case has its name
    cell rewritten to the first such staff name, whatever staff names
    before it contain the cleaned name. *)
Theorem updateNames_exact_match_first
    (sheets : list RosterSheet) (staffList : list Row) (k i : nat)
    (exactMatch : string) :
  (k < List.length sheets)%nat ->
  (0 < i)%nat ->
  (i < List.length (data (nth k sheets (mkSheet EmptyString []))))%nat ->
  get (rowAt sheets k i) 5 <> CNull ->
  get (rowAt sheets k i) 5 <> CUndefined ->
  find (fun sn => String.eqb (toLowerCase sn)
          (toLowerCase (cleanName (get (rowAt sheets k i) 5))))
       (staffFullNames staffList) = Some exactMatch ->
  aliasMatch (staffFullNames staffList)
    (toLowerCase (cleanName (get (rowAt sheets k i) 5)))
    "clara ckm" "clara cheung ka man" = None ->
  aliasMatch (staffFullNames staffList)
    (toLowerCase (cleanName (get (rowAt sheets k i) 5)))
    "clara cheung" "clara cheung wing kum" = None ->
  rowAt (updateNames sheets staffList) k i =
  set (rowAt sheets k i) 5 (CStr exactMatch).
Proof.
  intros Hk Hi0 Hi Hnull Hundef Hfind Ha1 Ha2.
  rewrite updateNames_rowAt by assumption.
  assert (cleanName (get (rowAt sheets k i) 5) <> EmptyString) as Hclean.
  { intros Hempty. apply find_some in Hfind. destruct Hfind as [Hin Heq].
    apply String.eqb_eq in Heq. rewrite Hempty in Heq. cbn in Heq.
    apply toLowerCase_empty in Heq.
    now apply staffFullNames_nonempty in Hin. }
  rewrite updateRow_resolution; try assumption;
    [| apply staffFullNames_nonempty].
  unfold resolution, genericMatch. rewrite Ha1, Ha2, Hfind. reflexivity.
Qed.

(** C6.  A data row whose cleaned name is "clara ckm" without regard to case
    has its name cell rewritten to the first staff name that contains
    "clara cheung ka man" without regard to case; when no staff name does,
    the generic rules (first exact match, else first containing name)
    decide, and with no match the row is returned as it was. *)
Theorem updateNames_clara_ckm
    (sheets : list RosterSheet) (staffList : list Row) (k i : nat) :
  (k < List.length sheets)%nat ->
  (0 < i)%nat ->
  (i < List.length (data (nth k sheets (mkSheet EmptyString []))))%nat ->
  get (rowAt sheets k i) 5 <> CNull ->
  get (rowAt sheets k i) 5 <> CUndefined ->
  toLowerCase (cleanName (get (rowAt sheets k i) 5)) = "clara ckm" ->
  rowAt (updateNames sheets staffList) k i =
  match find (fun sn => includes (toLowerCase sn) "clara cheung ka man")
             (staffFullNames staffList) with
  | Some claraMatch => set (rowAt sheets k i) 5 (CStr claraMatch)
  | None =>
      match genericMatch (staffFullNames staffList) "clara ckm" with
      | Some m => set (rowAt sheets k i) 5 (CStr m)
      | None => rowAt sheets k i
      end
  end.
Proof.
  intros Hk Hi0 Hi Hnull Hundef Hlower.
  rewrite updateNames_rowAt by assumption.
  assert (cleanName (get (rowAt sheets k i) 5) <> EmptyString) as Hclean.
  { intros Hempty. rewrite Hempty in Hlower. discriminate. }
  rewrite updateRow_resolution; try assumption;
    [| apply staffFullNames_nonempty].
  rewrite Hlower. unfold resolution, aliasMatch.
  rewrite !truthy_find by apply staffFullNames_nonempty.
  cbn [String.eqb Ascii.eqb].
  change (String.eqb "clara ckm" "clara ckm") with true.
  change (String.eqb "clara ckm" "clara cheung") with false.
  cbv iota.
  destruct (find (fun sn => includes (toLowerCase sn) "clara cheung ka man")
              (staffFullNames staffList)); reflexivity.
Qed.

Lemma Forall2_mapFrom {A B} (P : A -> B -> Prop) (f : A -> nat -> B) l i :
  (forall x n, P x (f x n)) -> Forall2 P l (mapFrom i f l).
Proof.
  intros HP. revert i. induction l; intros i; cbn; constructor; auto.
Qed.

Lemma Forall2_map_r {A B} (P : A -> B -> Prop) (f : A -> B) l :
  (forall x, P x (f x)) -> Forall2 P l (map f l).
Proof. intros HP. induction l; cbn; constructor; auto. Qed.

(** C10.  [updateNames] returns the same sheets in the same order, under
    the same names, each with the same number of rows; row 0 of each sheet
    is the input's; every row keeps its length and every cell at an index
    other than 5; a data row whose cell 5 is null or undefined is returned
    as it was. *)
Theorem updateNames_frame (rosterSheets : list RosterSheet) (staffList : list Row) :
  Forall2
    (fun sheet sheet' =>
       name sheet' = name sheet /\
       hd_error (data sheet') = hd_error (data sheet) /\
       Forall2
         (fun row row' =>
            sameBut5 row row' /\
            (get row 5 = CNull \/ get row 5 = CUndefined -> row' = row))
         (data sheet) (data sheet'))
    rosterSheets (updateNames rosterSheets staffList).
Proof.
  unfold updateNames. apply Forall2_map_r. intros sheet. cbn [name data].
  repeat split.
  - destruct (data sheet); reflexivity.
  - unfold mapi. apply Forall2_mapFrom. intros row rIdx. split.
    + apply updateRow_frame.
    + apply updateRow_absent.
Qed.

End ResolverClaims.

(** "J. Smith (am)" against a staff list holding "Jane Smith": nothing
    matches and the row is returned as it was. *)
Lemma updateNames_unmatched_keeps_raw_witness :
  rowAt (updateNames (host := utcHost) Sample.toResolve [[CStr "Jane Smith"]]) 0 1
  = Sample.march5Clean.
Proof.
  apply (updateNames_unmatched_keeps_raw (host := utcHost)
           Sample.toResolve [[CStr "Jane Smith"]] 0 1).
  - cbn. lia.
  - lia.
  - cbn. lia.
  - discriminate.
  - discriminate.
  - vm_compute. discriminate.
  - reflexivity.
  - reflexivity.
  - intros sn Hin. vm_compute in Hin. destruct Hin as [<- | []]. reflexivity.
Defined.

(** C2 as the spec states it fails: the cleaned name is "J. Smith", and the
    cell still reads "J. Smith (am)". *)
Lemma updateNames_leaves_annotation :
  cleanName (host := utcHost) (CStr "J. Smith (am)") = "J. Smith" /\
  get (rowAt Sample.toResolve 0 1) 5 = CStr "J. Smith (am)" /\
  get (rowAt (updateNames (host := utcHost) Sample.toResolve
                [[CStr "Jane Smith"]]) 0 1) 5 = CStr "J. Smith (am)".
Proof. vm_compute. repeat split. Qed.

(** "ann lee" is rewritten to "Ann Lee", the exact match, although
    "Ann Lee Wong" comes first and contains it. *)
Lemma updateNames_exact_match_first_witness :
  rowAt (updateNames (host := utcHost) Sample.toResolve
           [[CStr "Ann Lee Wong"]; [CStr "Ann Lee"]]) 0 3
  = set Sample.annClean 5 (CStr "Ann Lee").
Proof.
  apply (updateNames_exact_match_first (host := utcHost)
           Sample.toResolve [[CStr "Ann Lee Wong"]; [CStr "Ann Lee"]] 0 3 "Ann Lee").
  - cbn. lia.
  - lia.
  - cbn. lia.
  - discriminate.
  - discriminate.
  - reflexivity.
  - reflexivity.
  - reflexivity.
Defined.

(** C5 as the spec states it fails: "Clara Cheung" equals the staff name
    "Clara Cheung", and the alias writes "Clara Cheung Wing Kum". *)
Lemma updateNames_alias_beats_exact_match :
  find (fun sn => String.eqb (toLowerCase sn)
          (toLowerCase (cleanName (host := utcHost) (CStr "Clara Cheung"))))
       (staffFullNames (host := utcHost)
          [[CStr "Clara Cheung"]; [CStr "Clara Cheung Wing Kum"]])
    = Some "Clara Cheung" /\
  get (rowAt Sample.toResolve 0 4) 5 = CStr "Clara Cheung" /\
  get (rowAt (updateNames (host := utcHost) Sample.toResolve
                [[CStr "Clara Cheung"]; [CStr "Clara Cheung Wing Kum"]]) 0 4) 5
    = CStr "Clara Cheung Wing Kum".
Proof. vm_compute. repeat split. Qed.

(** "Clara CKM" is rewritten to the staff name that contains
    "Clara Cheung Ka Man". *)
Lemma updateNames_clara_ckm_witness :
  rowAt (updateNames (host := utcHost) Sample.toResolve
           [[CStr "Clara Cheung Wing Kum"]; [CStr "Dr Clara Cheung Ka Man"]]) 0 2
  = set Sample.march9Clean 5 (CStr "Dr Clara Cheung Ka Man").
Proof.
  apply (updateNames_clara_ckm (host := utcHost)
           Sample.toResolve
           [[CStr "Clara Cheung Wing Kum"]; [CStr "Dr Clara Cheung Ka Man"]] 0 2).
  - cbn. lia.
  - lia.
  - cbn. lia.
  - discriminate.
  - discriminate.
  - reflexivity.
Defined.

(** Without such a staff name the generic rules decide: here the first name
    that contains "clara ckm". *)
Example updateNames_clara_ckm_falls_through :
  get (rowAt (updateNames (host := utcHost) Sample.toResolve
                [[CStr "Ann Lee"]; [CStr "Clara CKM Lau"]]) 0 2) 5
  = CStr "Clara CKM Lau".
Proof. reflexivity. Qed.

(* ------------------------------------------------------------------ *)
(** ** MonthFrequencyAnalyzer: [findMajorityMonth] *)

Module CountFacts.

Lemma countOf_increment_same k c : countOf k (increment k c) = S (countOf k c).
Proof.
  induction c as [| [k' n] c IH]; cbn.
  - now rewrite String.eqb_refl.
  - destruct (String.eqb_spec k' k) as [-> | Hne]; cbn.
    + now rewrite String.eqb_refl.
    + destruct (String.eqb_spec k' k); [contradiction | exact IH].
Qed.

Lemma countOf_increment_other k k0 c :
  k <> k0 -> countOf k (increment k0 c) = countOf k c.
Proof.
  intros Hne. induction c as [| [k' n] c IH]; cbn.
  - destruct (String.eqb_spec k0 k); [congruence | reflexivity].
  - destruct (String.eqb_spec k' k0) as [-> | Hne']; cbn.
    + destruct (String.eqb_spec k0 k); [congruence | reflexivity].
    + destruct (String.eqb_spec k' k); [reflexivity | exact IH].
Qed.

Lemma keys_increment k c : map fst (increment k c) = addKey (map fst c) k.
Proof.
  unfold addKey. induction c as [| [k' n] c IH]; cbn; [reflexivity |].
  destruct (String.eqb_spec k' k) as [-> | Hne]; cbn; [reflexivity |].
  rewrite IH. destruct (existsb (fun k' => String.eqb k' k) (map fst c)); reflexivity.
Qed.

Lemma countOf_tally keys : forall c k,
  countOf k (tally keys c) = (countOf k c + occurrences keys k)%nat.
Proof.
  unfold occurrences.
  induction keys as [| k0 keys IH]; intros c k; cbn; [lia |].
  unfold tally in IH. rewrite IH.
  destruct (string_dec k0 k) as [-> | Hne].
  - rewrite countOf_increment_same. lia.
  - rewrite countOf_increment_other by congruence. lia.
Qed.

Lemma keys_tally keys : forall c,
  map fst (tally keys c) = fold_left addKey keys (map fst c).
Proof.
  induction keys as [| k0 keys IH]; intros c; cbn; [reflexivity |].
  unfold tally in IH. rewrite IH, keys_increment. reflexivity.
Qed.

Lemma addKey_In ks k x : In x (addKey ks k) <-> In x ks \/ x = k.
Proof.
  unfold addKey.
  destruct (existsb (fun k' => String.eqb k' k) ks) eqn:E.
  - apply existsb_exists in E. destruct E as (k' & Hin & Heq).
    apply String.eqb_eq in Heq. subst k'. split; [auto |].
    intros [H | ->]; assumption.
  - rewrite in_app_iff. cbn. intuition congruence.
Qed.

Lemma addKey_NoDup ks k : NoDup ks -> NoDup (addKey ks k).
Proof.
  intros Hnd. unfold addKey.
  destruct (existsb (fun k' => String.eqb k' k) ks) eqn:E; [exact Hnd |].
  apply NoDup_app; [exact Hnd | constructor; [intros [] | constructor] |].
  intros x Hx [-> | []].
  assert (existsb (fun k' => String.eqb k' x) ks = true) as E'.
  { apply existsb_exists. exists x. split; [exact Hx | apply String.eqb_refl]. }
  congruence.
Qed.

Lemma firstSeen_snoc keys k : firstSeen (keys ++ [k]) = addKey (firstSeen keys) k.
Proof. unfold firstSeen. now rewrite fold_left_app. Qed.

Lemma firstSeen_In keys x : In x (firstSeen keys) <-> In x keys.
Proof.
  induction keys as [| k keys IH] using rev_ind; [reflexivity |].
  rewrite firstSeen_snoc, addKey_In, in_app_iff, IH. cbn. intuition congruence.
Qed.

Lemma firstSeen_NoDup keys : NoDup (firstSeen keys).
Proof.
  induction keys as [| k keys IH] using rev_ind; [constructor |].
  rewrite firstSeen_snoc. now apply addKey_NoDup.
Qed.

Lemma snoc_split {A} (l a b : list A) (x y : A) :
  (l ++ [x] = a ++ y :: b)%list ->
  (b = [] /\ a = l /\ y = x) \/ (exists b', b = (b' ++ [x])%list /\ l = (a ++ y :: b')%list).
Proof.
  intros Heq. destruct b as [| z b] using rev_ind.
  - apply app_inj_tail in Heq. destruct Heq as [-> ->]. left. auto.
  - clear IHb. right. exists b.
    change (a ++ y :: b ++ [z])%list with (a ++ (y :: b) ++ [z])%list in Heq.
    rewrite app_assoc in Heq. apply app_inj_tail in Heq.
    destruct Heq as [-> ->]. split; reflexivity.
Qed.

(** A key stands in [firstSeen] after all the keys met before its first
    occurrence. *)
Lemma firstSeen_order keys : forall a k b,
  firstSeen keys = (a ++ k :: b)%list ->
  exists pre post, keys = (pre ++ k :: post)%list /\ forall x, In x pre -> In x a.
Proof.
  induction keys as [| k0 keys IH] using rev_ind; intros a k b Heq.
  - destruct a; discriminate.
  - rewrite firstSeen_snoc in Heq. unfold addKey in Heq.
    destruct (existsb (fun k' => String.eqb k' k0) (firstSeen keys)) eqn:E.
    + destruct (IH _ _ _ Heq) as (pre & post & -> & Hpre).
      exists pre, (post ++ [k0])%list. split; [| exact Hpre].
      now rewrite <- app_assoc.
    + apply snoc_split in Heq. destruct Heq as [(-> & -> & ->) | (b' & -> & Heq)].
      * exists keys, []. split; [reflexivity |].
        intros x Hx. now apply firstSeen_In.
      * destruct (IH _ _ _ Heq) as (pre & post & -> & Hpre).
        exists pre, (post ++ [k0])%list. split; [| exact Hpre].
        now rewrite <- app_assoc.
Qed.

Lemma countOf_In k n c : NoDup (map fst c) -> In (k, n) c -> countOf k c = n.
Proof.
  induction c as [| [k' n'] c IH]; intros Hnd Hin; [contradiction |].
  cbn in *. inversion Hnd as [| ? ? Hnotin Hnd']; subst.
  destruct Hin as [Heq | Hin].
  - inversion Heq; subst. now rewrite String.eqb_refl.
  - destruct (String.eqb_spec k' k) as [-> | _]; [| now apply IH].
    exfalso. apply Hnotin. apply in_map_iff. exists (k, n). auto.
Qed.

(** The entries of the tally: each key seen, with how often it was seen. *)
Lemma tally_entries keys k n :
  In (k, n) (tally keys []) -> n = occurrences keys k /\ In k keys.
Proof.
  intros Hin.
  assert (NoDup (map fst (tally keys []))) as Hnd
    by (rewrite keys_tally; apply firstSeen_NoDup).
  split.
  - rewrite <- (countOf_In _ _ _ Hnd Hin). now rewrite countOf_tally.
  - apply firstSeen_In. change (firstSeen keys) with (fold_left addKey keys (map fst (@nil (string * nat)))).
    rewrite <- keys_tally. apply in_map_iff. exists (k, n). auto.
Qed.

Lemma occurrences_pos keys k : In k keys <-> (0 < occurrences keys k)%nat.
Proof. unfold occurrences. apply count_occ_In. Qed.

(** The loop of lines 88-93: either no entry exceeds the running maximum,
    or the first entry with the greatest count is chosen. *)
Lemma pickMax_fold (c : Counts) : forall m mj,
  (fold_left pickMax c (m, mj) = (m, mj) /\
   forall k n, In (k, n) c -> (n <= m)%nat) \/
  (exists a k n b,
     c = (a ++ (k, n) :: b)%list /\
     fold_left pickMax c (m, mj) = (n, Some k) /\
     (m < n)%nat /\
     (forall k' n', In (k', n') a -> (n' < n)%nat) /\
     (forall k' n', In (k', n') b -> (n' <= n)%nat)).
Proof.
  induction c as [| [k0 n0] c IH]; intros m mj.
  - left. split; [reflexivity | intros ? ? []].
  - cbn [fold_left pickMax]. destruct (Nat.ltb_spec m n0) as [Hlt | Hge].
    + destruct (IH n0 (Some k0)) as [[Hres Hall] | (a & k & n & b & -> & Hres & Hn & Ha & Hb)].
      * right. exists [], k0, n0, c. repeat split; auto. intros ? ? [].
      * right. exists ((k0, n0) :: a), k, n, b. repeat split; auto; [lia |].
        intros k' n' [Heq | Hin]; [inversion Heq; subst; lia | eauto].
    + destruct (IH m mj) as [[Hres Hall] | (a & k & n & b & -> & Hres & Hn & Ha & Hb)].
      * left. split; [exact Hres |].
        intros k n [Heq | Hin]; [inversion Heq; subst; lia | eauto].
      * right. exists ((k0, n0) :: a), k, n, b. repeat split; auto.
        intros k' n' [Heq | Hin]; [inversion Heq; subst; lia | eauto].
Qed.

End CountFacts.

Section Majority.
Context {host : Host}.

Import CountFacts.

Lemma tally_app keys1 keys2 c :
  tally (keys1 ++ keys2) c = tally keys2 (tally keys1 c).
Proof. unfold tally. apply fold_left_app. Qed.

Lemma countRow_data_row monthCounts row index :
  (0 < index)%nat -> countRow monthCounts row index = tally (rowKeys row) monthCounts.
Proof.
  intros Hidx. unfold countRow, rowKeys.
  destruct (Nat.eqb_spec index 0); [lia |].
  destruct (parseYMD (get row 2)); reflexivity.
Qed.

Lemma forEachFrom_countRow rows : forall index monthCounts,
  (0 < index)%nat ->
  forEachFrom index countRow rows monthCounts =
  tally (flat_map rowKeys rows) monthCounts.
Proof.
  induction rows as [| row rows IH]; intros index monthCounts Hidx; [reflexivity |].
  cbn [forEachFrom flat_map]. rewrite tally_app, IH by lia.
  rewrite countRow_data_row by assumption. reflexivity.
Qed.

(** The scan of one sheet skips row 0 and tallies the rest. *)
Lemma forEachi_countRow rows monthCounts :
  forEachi countRow rows monthCounts =
  tally (flat_map rowKeys (tl rows)) monthCounts.
Proof.
  unfold forEachi. destruct rows as [| header rows]; [reflexivity |].
  cbn [forEachFrom tl]. rewrite forEachFrom_countRow by lia. reflexivity.
Qed.

Lemma countSheets_from sheets : forall monthCounts,
  fold_left (fun monthCounts sheet => forEachi countRow (data sheet) monthCounts)
            sheets monthCounts =
  tally (dateKeys sheets) monthCounts.
Proof.
  induction sheets as [| sheet sheets IH]; intros monthCounts; [reflexivity |].
  cbn [fold_left]. rewrite IH, forEachi_countRow.
  unfold dateKeys. cbn [flat_map]. now rewrite tally_app.
Qed.

Lemma countSheets_tally sheets : countSheets sheets = tally (dateKeys sheets) [].
Proof. apply countSheets_from. Qed.

Lemma dateKeys_nil sheets :
  dateKeys sheets = [] <->
  forall sheet row, In sheet sheets -> In row (tl (data sheet)) ->
                    parseYMD (get row 2) = None.
Proof.
  unfold dateKeys. split.
  - intros Hnil sheet row Hsheet Hrow.
    destruct (parseYMD (get row 2)) as [d |] eqn:Hparse; [| reflexivity].
    assert (In (monthKey d) (flat_map (fun sheet => flat_map rowKeys (tl (data sheet))) sheets)) as Hin.
    { apply in_flat_map. exists sheet. split; [exact Hsheet |].
      apply in_flat_map. exists row. split; [exact Hrow |].
      unfold rowKeys. rewrite Hparse. left. reflexivity. }
    rewrite Hnil in Hin. contradiction.
  - intros Hall.
    destruct (flat_map (fun sheet => flat_map rowKeys (tl (data sheet))) sheets)
      as [| k keys] eqn:Hkeys; [reflexivity |].
    assert (In k (flat_map (fun sheet => flat_map rowKeys (tl (data sheet))) sheets)) as Hin
      by (rewrite Hkeys; left; reflexivity).
    apply in_flat_map in Hin. destruct Hin as (sheet & Hsheet & Hin).
    apply in_flat_map in Hin. destruct Hin as (row & Hrow & Hin).
    unfold rowKeys in Hin. rewrite (Hall sheet row Hsheet Hrow) in Hin. contradiction.
Qed.

(** C3.  [findMajorityMonth] returns null exactly when no row other than a
    row 0 has a date cell (index 2) that parses.  Otherwise it returns a
    month key [k] that no key outnumbers, and among the keys that occur as
    often, the one met first in the scan: every key met before the first
    occurrence of [k] occurs strictly less often. *)
Theorem findMajorityMonth_spec (sheets : list RosterSheet) :
  (findMajorityMonth sheets = None <-> dateKeys sheets = []) /\
  (dateKeys sheets = [] <->
   forall sheet row, In sheet sheets -> In row (tl (data sheet)) ->
                     parseYMD (get row 2) = None) /\
  (forall k,
     findMajorityMonth sheets = Some k ->
     exists pre post,
       dateKeys sheets = (pre ++ k :: post)%list /\
       ~ In k pre /\
       (forall k', (occurrences (dateKeys sheets) k'
                    <= occurrences (dateKeys sheets) k)%nat) /\
       (forall k', In k' pre ->
                   (occurrences (dateKeys sheets) k'
                    < occurrences (dateKeys sheets) k)%nat)).
Proof.
  unfold findMajorityMonth. rewrite countSheets_tally.
  set (keys := dateKeys sheets).
  assert (forall k,
            snd (fold_left pickMax (tally keys []) (0%nat, None)) = Some k ->
            exists pre post,
              keys = (pre ++ k :: post)%list /\
              (forall k', (occurrences keys k' <= occurrences keys k)%nat) /\
              (forall k', In k' pre ->
                          (occurrences keys k' < occurrences keys k)%nat)) as Hsome.
  { intros k Hres.
    destruct (pickMax_fold (tally keys []) 0%nat None)
      as [[Hfold _] | (a & k1 & n & b & Hsplit & Hfold & Hn & Ha & Hb)];
      rewrite Hfold in Hres; cbn in Hres; [discriminate |].
    inversion Hres; subst k1; clear Hres.
    assert (forall x m, In (x, m) (tally keys []) -> m = occurrences keys x) as Hcount
      by (intros x m Hin; now apply tally_entries in Hin).
    assert (n = occurrences keys k) as Hnk
      by (apply Hcount; rewrite Hsplit; apply in_elt).
    assert (firstSeen keys = (map fst a ++ k :: map fst b)%list) as Hkeys.
    { unfold firstSeen.
      change (@nil string) with (map fst (@nil (string * nat))).
      rewrite <- keys_tally, Hsplit, map_app. reflexivity. }
    destruct (firstSeen_order _ _ _ _ Hkeys) as (pre & post & Hpre & Hbefore).
    exists pre, post. split; [exact Hpre |]. split.
    - intros k'. destruct (in_dec string_dec k' keys) as [Hin | Hout].
      + apply firstSeen_In in Hin. rewrite Hkeys in Hin.
        apply in_app_or in Hin. rewrite <- Hnk.
        destruct Hin as [Hin | [<- | Hin]]; [| lia |];
          apply in_map_iff in Hin; destruct Hin as ([x m] & Hx & Hin);
          cbn in Hx; subst x.
        * rewrite <- (Hcount k' m) by (rewrite Hsplit; apply in_or_app; auto).
          apply Ha in Hin. lia.
        * rewrite <- (Hcount k' m)
            by (rewrite Hsplit; apply in_or_app; right; right; exact Hin).
          eapply Hb. exact Hin.
      + unfold occurrences at 1.
        apply (count_occ_not_In string_dec) in Hout. rewrite Hout. lia.
    - intros k' Hin. apply Hbefore in Hin.
      apply in_map_iff in Hin. destruct Hin as ([x m] & Hx & Hin).
      cbn in Hx; subst x. rewrite <- Hnk.
      rewrite <- (Hcount k' m) by (rewrite Hsplit; apply in_or_app; auto).
      eapply Ha. exact Hin. }
  split; [| split; [apply dateKeys_nil |]].
  - split.
    + intros Hnone. destruct keys as [| k keys'] eqn:Hkeys; [reflexivity |].
      exfalso.
      destruct (pickMax_fold (tally (k :: keys') []) 0%nat None)
        as [[_ Hall] | (a & k1 & n & b & _ & Hfold & _)].
      * assert (In k (firstSeen (k :: keys'))) as Hin
          by (apply firstSeen_In; left; reflexivity).
        unfold firstSeen in Hin.
        change (@nil string) with (map fst (@nil (string * nat))) in Hin.
        rewrite <- keys_tally in Hin.
        apply in_map_iff in Hin. destruct Hin as ([x m] & Hx & Hin).
        cbn in Hx; subst x.
        pose proof (Hall _ _ Hin) as Hle.
        apply tally_entries in Hin. destruct Hin as [-> Hin].
        apply occurrences_pos in Hin. lia.
      * rewrite Hfold in Hnone. discriminate.
    + intros ->. reflexivity.
  - intros k Hres. destruct (Hsome k Hres) as (pre & post & Hpre & Hmax & Hbefore).
    exists pre, post. repeat split; auto.
    intros Hin. specialize (Hbefore k Hin). lia.
Qed.

End Majority.

(** Two months tie at two rows each: March is met first and is returned,
    although April is the first to reach two. *)
Example findMajorityMonth_tie :
  findMajorityMonth (host := utcHost)
    [mkSheet "20240301"
       [Sample.header; Sample.march5; Sample.april2; Sample.april2; Sample.march9]]
  = Some "2024-03".
Proof. reflexivity. Qed.

(** No parseable date: no majority. *)
Example findMajorityMonth_none :
  findMajorityMonth (host := utcHost)
    [mkSheet "20240301" [Sample.march5; [CStr "x"; CNull; CStr "soon"]; []]]
  = None.
Proof. reflexivity. Qed.

(* ------------------------------------------------------------------ *)
(** ** Further properties: the tabs and the month key *)

Lemma filter_idempotent {A} (p : A -> bool) (l : list A) :
  filter p (filter p l) = filter p l.
Proof.
  induction l as [| x l IH]; cbn; [reflexivity |].
  destruct (p x) eqn:E; cbn; [rewrite E, IH |]; auto.
Qed.

(** X1.  [parseExcel] reads no tab only when the workbook has none; it reads
    tabs of the workbook only; and selecting again among the tabs it read
    changes nothing. *)
Theorem targetSheetNames_keeps_a_tab (fileName : string) (SheetNames : list string) :
  (targetSheetNames fileName SheetNames = [] <-> SheetNames = []) /\
  (forall tab, In tab (targetSheetNames fileName SheetNames) -> In tab SheetNames) /\
  targetSheetNames fileName (targetSheetNames fileName SheetNames)
    = targetSheetNames fileName SheetNames.
Proof.
  unfold targetSheetNames.
  destruct (existsb isRosterTab SheetNames) eqn:Hsome; cbn [andb].
  - destruct (negb (endsWith (toLowerCase fileName) ".csv")); cbn [andb].
    + pose proof Hsome as Hne. apply existsb_filter_nonempty in Hne.
      repeat split.
      * intros Hnil. contradiction.
      * intros ->. reflexivity.
      * intros tab Hin. apply filter_In in Hin. apply Hin.
      * assert (existsb isRosterTab (filter isRosterTab SheetNames) = true) as ->.
        { apply existsb_filter_nonempty. now rewrite filter_idempotent. }
        cbn [andb]. apply filter_idempotent.
    + rewrite Hsome. repeat split; auto.
  - rewrite Hsome. repeat split; auto.
Qed.

Module KeyFacts.

Lemma length_append (s1 s2 : string) :
  String.length (s1 ++ s2) = (String.length s1 + String.length s2)%nat.
Proof. induction s1; cbn; [reflexivity | now rewrite IHs1]. Qed.

(** Two strings with suffixes of one length are equal piece by piece. *)
Lemma append_inj_suffix (s1 s2 t1 t2 : string) :
  (s1 ++ t1 = s2 ++ t2)%string -> String.length t1 = String.length t2 ->
  s1 = s2 /\ t1 = t2.
Proof.
  revert s2. induction s1 as [| c s1 IH]; intros s2 Heq Hlen.
  - destruct s2 as [| c2 s2]; [auto |].
    apply (f_equal String.length) in Heq. cbn in Heq.
    rewrite length_append in Heq. lia.
  - destruct s2 as [| c2 s2].
    + apply (f_equal String.length) in Heq. cbn in Heq.
      rewrite length_append in Heq. lia.
    + cbn in Heq. inversion Heq as [[Hc Hrest]].
      destruct (IH _ Hrest Hlen) as [-> ->]. auto.
Qed.

(** [String(n)] tells integers apart. *)
Lemma ofZ_inj (a b : Z) : ofZ a = ofZ b -> a = b.
Proof.
  unfold ofZ. intros Heq.
  apply DecimalZ.to_int_inj.
  apply (f_equal NilZero.int_of_string) in Heq.
  assert (forall z, Z.to_int z <> Decimal.Pos Decimal.Nil /\
                    Z.to_int z <> Decimal.Neg Decimal.Nil) as Hnn.
  { intros [| p | p]; cbn; split; try discriminate;
      intros [= H]; now apply DecimalPos.Unsigned.to_uint_nonnil in H. }
  rewrite !NilZero.isi in Heq by apply Hnn.
  now inversion Heq.
Qed.

Lemma MonthFromTime_range t : 0 <= MonthFromTime t <= 11.
Proof.
  unfold MonthFromTime.
  repeat match goal with
         | |- context [if ?b then _ else _] => destruct b; [lia |]
         end; lia.
Qed.

(** The two digits of a month number 1..12. *)
Lemma month_digits m :
  1 <= m <= 12 ->
  String.length (padStart 2 "0" (ofZ m)) = 2%nat /\
  (forall m', 1 <= m' <= 12 ->
     padStart 2 "0" (ofZ m) = padStart 2 "0" (ofZ m') -> m = m').
Proof.
  intros Hm.
  assert (m = 1 \/ m = 2 \/ m = 3 \/ m = 4 \/ m = 5 \/ m = 6 \/ m = 7 \/
          m = 8 \/ m = 9 \/ m = 10 \/ m = 11 \/ m = 12) as Hcases by lia.
  split.
  - repeat (destruct Hcases as [-> | Hcases]); try subst m; reflexivity.
  - intros m' Hm' Heq.
    assert (m' = 1 \/ m' = 2 \/ m' = 3 \/ m' = 4 \/ m' = 5 \/ m' = 6 \/ m' = 7 \/
            m' = 8 \/ m' = 9 \/ m' = 10 \/ m' = 11 \/ m' = 12) as Hcases' by lia.
    repeat (destruct Hcases as [-> | Hcases]); try subst m;
      repeat (destruct Hcases' as [-> | Hcases']); try subst m';
      try reflexivity; vm_compute in Heq; discriminate.
Qed.

End KeyFacts.

Section MonthKey.
Context {host : Host}.

(** X2.  Two dates have the same month key exactly when they fall in the
    same month of the same year: the comparison of keys in the month filter
    is the comparison of (year, month). *)
Theorem monthKey_same_month (d1 d2 : Z) :
  monthKey d1 = monthKey d2 <->
  getFullYear d1 = getFullYear d2 /\ getMonth d1 = getMonth d2.
Proof.
  unfold monthKey. split.
  - intros Heq.
    pose proof (KeyFacts.MonthFromTime_range (LocalTime d1)) as H1.
    pose proof (KeyFacts.MonthFromTime_range (LocalTime d2)) as H2.
    fold (getMonth d1) in H1. fold (getMonth d2) in H2.
    destruct (KeyFacts.month_digits (getMonth d1 + 1)) as [Hlen1 Hinj]; [lia |].
    destruct (KeyFacts.month_digits (getMonth d2 + 1)) as [Hlen2 _]; [lia |].
    apply KeyFacts.append_inj_suffix in Heq;
      [| cbn [String.length append]; rewrite Hlen1, Hlen2; reflexivity].
    destruct Heq as [Hyear Hmonth]. split.
    + now apply KeyFacts.ofZ_inj.
    + inversion Hmonth as [Hdigits]. apply Hinj in Hdigits; lia.
  - intros [-> ->]. reflexivity.
Qed.

End MonthKey.

(* ------------------------------------------------------------------ *)
(** ** Further properties: how the stages compose *)

Section Composition.
Context {host : Host}.

Import CountFacts.

Lemma dateKeys_In sheets k :
  In k (dateKeys sheets) <->
  exists sheet row d,
    In sheet sheets /\ In row (tl (data sheet)) /\
    parseYMD (get row 2) = Some d /\ monthKey d = k.
Proof.
  unfold dateKeys. rewrite in_flat_map. split.
  - intros (sheet & Hsheet & Hin). apply in_flat_map in Hin.
    destruct Hin as (row & Hrow & Hin). unfold rowKeys in Hin.
    destruct (parseYMD (get row 2)) as [d |] eqn:Hparse; [| contradiction].
    destruct Hin as [<- | []]. exists sheet, row, d. auto.
  - intros (sheet & row & d & Hsheet & Hrow & Hparse & <-).
    exists sheet. split; [exact Hsheet |].
    apply in_flat_map. exists row. split; [exact Hrow |].
    unfold rowKeys. rewrite Hparse. left. reflexivity.
Qed.

(** The month returned is the key of some data row; none is returned only
    when there is no key. *)
Lemma findMajorityMonth_cases sheets :
  (findMajorityMonth sheets = None /\ dateKeys sheets = []) \/
  (exists k, findMajorityMonth sheets = Some k /\ In k (dateKeys sheets)).
Proof.
  unfold findMajorityMonth. rewrite countSheets_tally.
  destruct (pickMax_fold (tally (dateKeys sheets) []) 0%nat None)
    as [[Hfold Hall] | (a & k & n & b & Hsplit & Hfold & _)];
    rewrite Hfold; cbn [snd].
  - left. split; [reflexivity |].
    destruct (dateKeys sheets) as [| k keys] eqn:Hkeys; [reflexivity |].
    exfalso.
    assert (In k (firstSeen (k :: keys))) as Hin
      by (apply firstSeen_In; left; reflexivity).
    unfold firstSeen in Hin.
    change (@nil string) with (map fst (@nil (string * nat))) in Hin.
    rewrite <- keys_tally in Hin.
    apply in_map_iff in Hin. destruct Hin as ([x m] & Hx & Hin).
    cbn in Hx; subst x.
    pose proof (Hall _ _ Hin) as Hle.
    apply tally_entries in Hin. destruct Hin as [-> Hin].
    apply occurrences_pos in Hin. lia.
  - right. exists k. split; [reflexivity |].
    assert (In (k, n) (tally (dateKeys sheets) [])) as Hin
      by (rewrite Hsplit; apply in_elt).
    apply tally_entries in Hin. apply Hin.
Qed.

Lemma filterFrom_In_intro {A} (p : A -> nat -> bool) l i x :
  In x l -> (forall n, (i <= n)%nat -> p x n = true) -> In x (filterFrom i p l).
Proof.
  revert i. induction l as [| y l IH]; intros i Hin Hp; [contradiction |].
  cbn. destruct Hin as [-> | Hin].
  - rewrite Hp by lia. left. reflexivity.
  - assert (In x (filterFrom (S i) p l)) as Hrest
      by (apply IH; [exact Hin | intros n Hn; apply Hp; lia]).
    destruct (p y i); [right |]; exact Hrest.
Qed.

Lemma keepRow_dated majorityMonth row index d :
  parseYMD (get row 2) = Some d -> monthKey d = majorityMonth ->
  keepRow majorityMonth row index = true.
Proof.
  intros Hparse Hkey. unfold keepRow. destruct (index =? 0)%nat; [reflexivity |].
  rewrite Hparse. now apply String.eqb_eq.
Qed.

(** A sheet of at most 72 rows with a data row of the month survives the
    cleaning for that month. *)
Lemma cleanRosterData_keeps_sheet sheets majorityMonth sheet row d :
  In sheet sheets -> (List.length (data sheet) <= 72)%nat ->
  In row (tl (data sheet)) ->
  parseYMD (get row 2) = Some d -> monthKey d = majorityMonth ->
  In (cleanSheet majorityMonth sheet) (cleanRosterData sheets majorityMonth).
Proof.
  intros Hsheet Hlen Hrow Hparse Hkey.
  apply cleanRosterData_In. exists sheet. repeat split; auto.
  rewrite cleanSheet_data. unfold slice0. rewrite firstn_all2 by exact Hlen.
  destruct (data sheet) as [| header rows]; [contradiction |].
  cbn [tl] in Hrow. cbn [List.length]. rewrite ArrayFacts.mapFrom_length.
  assert (In row (filterFrom 1 (keepRow majorityMonth) rows)) as Hin.
  { apply filterFrom_In_intro; [exact Hrow |].
    intros n _. eapply keepRow_dated; eassumption. }
  destruct (filterFrom 1 (keepRow majorityMonth) rows); [contradiction | cbn; lia].
Qed.

Lemma monthKey_nonempty d : monthKey d <> EmptyString.
Proof. unfold monthKey. destruct (ofZ (getFullYear d)); discriminate. Qed.

(** X3.  When no sheet has more than 72 rows, the month that
    [findMajorityMonth] returns always leaves data after cleaning: the alert
    "No matching data found" cannot be the outcome of [startProcessing]. *)
Theorem startProcessing_never_empty_when_short
    (rosterSheets staffSheets : list RosterSheet) (month : string) :
  (forall sheet, In sheet rosterSheets -> (List.length (data sheet) <= 72)%nat) ->
  (findMajorityMonth rosterSheets = Some month ->
   cleanRosterData rosterSheets month <> []) /\
  startProcessing rosterSheets staffSheets <> AlertEmpty month.
Proof.
  intros Hshort.
  assert (forall m, findMajorityMonth rosterSheets = Some m ->
                    cleanRosterData rosterSheets m <> []) as Hclean.
  { intros m Hmaj.
    destruct (findMajorityMonth_cases rosterSheets)
      as [[Hnone _] | (k & Hsome & Hin)]; [congruence |].
    rewrite Hsome in Hmaj. inversion Hmaj; subst k.
    apply dateKeys_In in Hin.
    destruct Hin as (sheet & row & d & Hsheet & Hrow & Hparse & Hkey).
    pose proof (cleanRosterData_keeps_sheet _ _ _ _ _ Hsheet
                  (Hshort _ Hsheet) Hrow Hparse Hkey) as Hin.
    intros Hnil. rewrite Hnil in Hin. contradiction. }
  split; [apply Hclean |].
  unfold startProcessing.
  destruct (List.length rosterSheets =? 0)%nat; [discriminate |].
  destruct (findMajorityMonth rosterSheets) as [m |] eqn:Hmaj; [| discriminate].
  destruct (String.eqb m EmptyString); [discriminate |].
  specialize (Hclean m eq_refl).
  destruct (cleanRosterData rosterSheets m); [contradiction | discriminate].
Qed.

End Composition.

(** The sample workbook has short sheets: its month leaves data. *)
Lemma startProcessing_never_empty_when_short_witness :
  (findMajorityMonth (host := utcHost) Sample.roster = Some "2024-03" ->
   cleanRosterData (host := utcHost) Sample.roster "2024-03" <> []) /\
  startProcessing (host := utcHost) Sample.roster [] <> AlertEmpty "2024-03".
Proof.
  apply (startProcessing_never_empty_when_short (host := utcHost)
           Sample.roster [] "2024-03").
  intros sheet Hin. vm_compute in Hin.
  destruct Hin as [<- | [<- | []]]; cbn; lia.
Defined.

(** With longer sheets the alert does occur: the only dated rows lie at
    index 72 and beyond. *)
Example startProcessing_empty_after_cleaning :
  startProcessing (host := utcHost)
    [mkSheet "20240301"
       (Sample.header :: repeat [CStr "AM"; CNull; CStr "tbc"] 71
          ++ repeat Sample.march5 9)] []
  = AlertEmpty "2024-03".
Proof. vm_compute. reflexivity. Qed.

Section Recleaning.
Context {host : Host}.

Lemma set_same (row : Row) i v :
  (i < List.length row)%nat -> get row i = v -> set row i v = row.
Proof.
  unfold get. revert i. induction row as [| c row IH]; intros i Hi Hv; cbn in Hi; [lia |].
  destruct i; cbn in *; [congruence |]. rewrite IH; [reflexivity | lia | exact Hv].
Qed.

Lemma truncated_id (row : Row) :
  List.length row = 8%nat -> padLoop 8 (slice0 8 row) = row.
Proof.
  intros Hlen. rewrite padLoop_closed by lia. unfold slice0.
  rewrite firstn_all2 by lia. rewrite Hlen. cbn. apply app_nil_r.
Qed.

Lemma finalizeRow_header_id (row : Row) :
  List.length row = 8%nat -> finalizeRow row 0 = row.
Proof. intros Hlen. rewrite finalizeRow_header. now apply truncated_id. Qed.

Lemma finalizeRow_clean majorityMonth row rIdx :
  cleanRow majorityMonth row -> finalizeRow row rIdx = row.
Proof.
  intros (Hlen & d & Hcell & _). unfold finalizeRow.
  rewrite truncated_id by exact Hlen. rewrite Hcell. cbn [falsy negb parseYMD].
  destruct (0 <? rIdx)%nat; cbn [andb]; [| reflexivity].
  apply set_same; [lia | exact Hcell].
Qed.

Lemma keepRow_clean majorityMonth row index :
  cleanRow majorityMonth row -> keepRow majorityMonth row index = true.
Proof.
  intros (_ & d & Hcell & Hkey). apply (keepRow_dated _ _ _ d); [| exact Hkey].
  rewrite Hcell. reflexivity.
Qed.

Lemma mapFrom_id {A} (f : A -> nat -> A) l i :
  Forall (fun x => forall n, f x n = x) l -> mapFrom i f l = l.
Proof.
  intros Hall. revert i. induction Hall as [| x l Hx _ IH]; intros i; cbn;
    [reflexivity | now rewrite Hx, IH].
Qed.

Lemma filterFrom_id {A} (p : A -> nat -> bool) l i :
  Forall (fun x => forall n, p x n = true) l -> filterFrom i p l = l.
Proof.
  intros Hall. revert i. induction Hall as [| x l Hx _ IH]; intros i; cbn;
    [reflexivity | now rewrite Hx, IH].
Qed.

(** The shape of a cleaned sheet: nothing, or a header of eight cells over
    rows that are clean for the month. *)
Lemma cleanSheet_shape majorityMonth sheet :
  data (cleanSheet majorityMonth sheet) = [] \/
  exists header rows,
    data (cleanSheet majorityMonth sheet) = header :: rows /\
    List.length header = 8%nat /\ Forall (cleanRow majorityMonth) rows.
Proof.
  rewrite cleanSheet_data.
  destruct (slice0 72 (data sheet)) as [| header rest]; [left; reflexivity |].
  right. eexists. eexists. split; [reflexivity |].
  split; [apply finalizeRow_length |].
  apply Forall_forall. intros row Hrow. split.
  - apply ArrayFacts.mapFrom_In in Hrow. destruct Hrow as (src & n & _ & _ & ->).
    apply finalizeRow_length.
  - eapply survivors_dated. exact Hrow.
Qed.

Lemma cleanSheet_idempotent majorityMonth sheet :
  cleanSheet majorityMonth (cleanSheet majorityMonth sheet)
  = cleanSheet majorityMonth sheet.
Proof.
  pose proof (cleanSheet_length majorityMonth sheet) as Hlen.
  unfold cleanSheet at 1.
  change (name (cleanSheet majorityMonth sheet)) with (name sheet).
  unfold slice0 at 1. rewrite firstn_all2 by exact Hlen.
  assert (mapi finalizeRow
            (filteri (keepRow majorityMonth) (data (cleanSheet majorityMonth sheet)))
          = data (cleanSheet majorityMonth sheet)) as Hdata.
  { destruct (cleanSheet_shape majorityMonth sheet)
      as [-> | (header & rows & -> & Hheader & Hrows)]; [reflexivity |].
    unfold mapi, filteri. cbn [filterFrom keepRow Nat.eqb].
    rewrite filterFrom_id
      by (eapply Forall_impl; [| exact Hrows]; intros row Hrow n;
          now apply keepRow_clean).
    cbn [mapFrom]. rewrite finalizeRow_header_id by exact Hheader.
    rewrite mapFrom_id
      by (eapply Forall_impl; [| exact Hrows]; intros row Hrow n;
          now apply (finalizeRow_clean majorityMonth)).
    reflexivity. }
  rewrite Hdata. reflexivity.
Qed.

(** X4.  Cleaning a cleaned workbook for the same month returns it
    unchanged. *)
Theorem cleanRosterData_idempotent (sheets : list RosterSheet) (majorityMonth : string) :
  cleanRosterData (cleanRosterData sheets majorityMonth) majorityMonth
  = cleanRosterData sheets majorityMonth.
Proof.
  unfold cleanRosterData.
  set (big := fun sheet : RosterSheet => (1 <? List.length (data sheet))%nat).
  assert (map (cleanSheet majorityMonth)
              (filter big (map (cleanSheet majorityMonth) sheets))
          = filter big (map (cleanSheet majorityMonth) sheets)) as ->.
  { rewrite <- (map_id (filter big (map (cleanSheet majorityMonth) sheets))) at 2.
    apply map_ext_in. intros sheet Hin.
    apply filter_In in Hin. destruct Hin as [Hin _].
    apply in_map_iff in Hin. destruct Hin as (src & <- & _).
    apply cleanSheet_idempotent. }
  apply filter_idempotent.
Qed.

Lemma cleanRosterData_shape sheets majorityMonth sheet :
  In sheet (cleanRosterData sheets majorityMonth) ->
  exists header row rows,
    data sheet = header :: row :: rows /\
    List.length header = 8%nat /\ Forall (cleanRow majorityMonth) (row :: rows).
Proof.
  intros Hin. apply cleanRosterData_In in Hin.
  destruct Hin as (input & _ & -> & Hlen).
  destruct (cleanSheet_shape majorityMonth input)
    as [Hnil | (header & rows & Hdata & Hheader & Hrows)].
  - rewrite Hnil in Hlen. cbn in Hlen. lia.
  - rewrite Hdata in Hlen |- *. destruct rows as [| row rows]; [cbn in Hlen; lia |].
    exists header, row, rows. auto.
Qed.

(** The keys of a cleaned workbook: all the month it was cleaned for, and
    at least one when a sheet is left. *)
Lemma dateKeys_cleaned sheets month k :
  In k (dateKeys (cleanRosterData sheets month)) -> k = month.
Proof.
  intros Hin. apply dateKeys_In in Hin.
  destruct Hin as (sheet & row & d & Hsheet & Hrow & Hparse & <-).
  destruct (cleanRosterData_shape _ _ _ Hsheet)
    as (header & row0 & rows & Hdata & _ & Hrows).
  rewrite Hdata in Hrow. cbn [tl] in Hrow.
  rewrite Forall_forall in Hrows.
  destruct (Hrows _ Hrow) as (_ & d' & Hcell & Hkey).
  rewrite Hcell in Hparse. cbn in Hparse. inversion Hparse; subst d'.
  exact Hkey.
Qed.

Lemma dateKeys_cleaned_nonempty sheets month :
  cleanRosterData sheets month <> [] ->
  dateKeys (cleanRosterData sheets month) <> [].
Proof.
  intros Hne Hkeys.
  destruct (cleanRosterData sheets month) as [| sheet rest] eqn:Hclean;
    [congruence |].
  assert (In sheet (cleanRosterData sheets month)) as Hsheet
    by (rewrite Hclean; left; reflexivity).
  destruct (cleanRosterData_shape _ _ _ Hsheet)
    as (header & row & rows & Hdata & _ & Hrows).
  apply Forall_inv in Hrows. destruct Hrows as (_ & d & Hcell & Hkey).
  assert (In month (dateKeys (sheet :: rest))) as Hin.
  { apply dateKeys_In. exists sheet, row, d. repeat split.
    - left. reflexivity.
    - rewrite Hdata. left. reflexivity.
    - rewrite Hcell. reflexivity.
    - exact Hkey. }
  rewrite Hkeys in Hin. contradiction.
Qed.

(** X5.  When cleaning leaves any sheet, the majority month of the cleaned
    workbook is the month it was cleaned for. *)
Theorem findMajorityMonth_of_cleaned (sheets : list RosterSheet) (majorityMonth : string) :
  cleanRosterData sheets majorityMonth <> [] ->
  findMajorityMonth (cleanRosterData sheets majorityMonth) = Some majorityMonth.
Proof.
  intros Hne.
  destruct (findMajorityMonth_cases (cleanRosterData sheets majorityMonth))
    as [[_ Hkeys] | (k & -> & Hin)].
  - now apply dateKeys_cleaned_nonempty in Hne.
  - f_equal. eapply dateKeys_cleaned. exact Hin.
Qed.

Lemma rowKeys_updateRow staff row rIdx :
  rowKeys (updateRow staff row rIdx) = rowKeys row.
Proof.
  unfold rowKeys. destruct (updateRow_frame staff row rIdx) as [_ Hcells].
  rewrite Hcells by discriminate. reflexivity.
Qed.

Lemma dateKeys_updateNames sheets staffList :
  dateKeys (updateNames sheets staffList) = dateKeys sheets.
Proof.
  unfold dateKeys, updateNames.
  induction sheets as [| sheet sheets IH]; [reflexivity |].
  cbn [map flat_map data]. rewrite IH. f_equal.
  unfold mapi. destruct (data sheet) as [| header rows]; [reflexivity |].
  cbn [mapFrom tl]. generalize 1%nat.
  induction rows as [| row rows IHrows]; intros i; [reflexivity |].
  cbn [mapFrom flat_map]. now rewrite rowKeys_updateRow, IHrows.
Qed.

(** X6.  Resolving names does not change the majority month. *)
Theorem findMajorityMonth_updateNames
    (rosterSheets : list RosterSheet) (staffList : list Row) :
  findMajorityMonth (updateNames rosterSheets staffList)
  = findMajorityMonth rosterSheets.
Proof.
  unfold findMajorityMonth.
  now rewrite !countSheets_tally, dateKeys_updateNames.
Qed.

End Recleaning.

Lemma findMajorityMonth_of_cleaned_witness :
  findMajorityMonth (host := utcHost)
    (cleanRosterData (host := utcHost) Sample.roster "2024-03") = Some "2024-03".
Proof.
  apply (findMajorityMonth_of_cleaned (host := utcHost) Sample.roster "2024-03").
  vm_compute. discriminate.
Defined.

(* ------------------------------------------------------------------ *)
(** ** Further properties: the names written *)

Section Names.
Context {host : Host}.

Lemma updateRow_no_staff row rIdx : updateRow [] row rIdx = row.
Proof.
  unfold updateRow, aliasMatch. cbn [find truthy].
  destruct (rIdx =? 0)%nat; [reflexivity |].
  destruct (get row 5);
    repeat match goal with
           | |- context [if ?b then _ else _] => destruct b
           end; reflexivity.
Qed.

Lemma sheet_eta (sheet : RosterSheet) : mkSheet (name sheet) (data sheet) = sheet.
Proof. destruct sheet; reflexivity. Qed.

(** X7.  With a staff list that yields no name (no rows, or only rows
    whose first cell is absent or blank), [updateNames] returns the workbook
    unchanged. *)
Theorem updateNames_without_staff
    (rosterSheets : list RosterSheet) (staffList : list Row) :
  staffFullNames staffList = [] ->
  updateNames rosterSheets staffList = rosterSheets.
Proof.
  intros Hstaff. unfold updateNames. rewrite Hstaff.
  rewrite <- (map_id rosterSheets) at 2. apply map_ext. intros sheet.
  unfold mapi. rewrite mapFrom_id; [apply sheet_eta |].
  apply Forall_forall. intros row _ n. apply updateRow_no_staff.
Qed.

Lemma staffFullNames_source staffList sn :
  In sn (staffFullNames staffList) ->
  exists staffRow,
    In staffRow staffList /\ sn = trim (toStr (get staffRow 0)) /\
    get staffRow 0 <> CNull /\ get staffRow 0 <> CUndefined.
Proof.
  unfold staffFullNames. intros Hin.
  apply filter_In in Hin. destruct Hin as [Hin _].
  apply in_map_iff in Hin. destruct Hin as (cell & <- & Hin).
  apply filter_In in Hin. destruct Hin as [Hin Hcell].
  apply in_map_iff in Hin. destruct Hin as (staffRow & <- & Hin).
  exists staffRow. repeat split; auto; intros E; rewrite E in Hcell; discriminate.
Qed.

Lemma truthy_In (p : string -> bool) staff m :
  truthy (find p staff) = Some m -> In m staff.
Proof.
  destruct (find p staff) as [sn |] eqn:Hfind; cbn; [| discriminate].
  destruct (String.eqb sn EmptyString); [discriminate |].
  intros [= <-]. apply find_some in Hfind. apply Hfind.
Qed.

Lemma aliasMatch_In staff rosterNameLower trigger target m :
  aliasMatch staff rosterNameLower trigger target = Some m -> In m staff.
Proof.
  unfold aliasMatch. destruct (String.eqb rosterNameLower trigger); [| discriminate].
  apply truthy_In.
Qed.

(** The name cell of a row after [updateRow]: the one it had, or a name of
    the staff list. *)
Lemma updateRow_name staff row rIdx :
  get (updateRow staff row rIdx) 5 = get row 5 \/
  exists sn, In sn staff /\ get (updateRow staff row rIdx) 5 = CStr sn.
Proof.
  unfold updateRow. destruct (rIdx =? 0)%nat; [left; reflexivity |].
  destruct (get row 5) eqn:Hcell; try (left; exact Hcell);
    (destruct (String.eqb _ EmptyString); [left; exact Hcell |]);
    (destruct (aliasMatch staff _ "clara ckm" _) as [m |] eqn:E1;
       [right; exists m; split;
          [eapply aliasMatch_In; exact E1 | apply ArrayFacts.get_set_same] |]);
    (destruct (aliasMatch staff _ "clara cheung" _) as [m |] eqn:E2;
       [right; exists m; split;
          [eapply aliasMatch_In; exact E2 | apply ArrayFacts.get_set_same] |]);
    (destruct (truthy (find (fun sn => String.eqb _ _) staff)) as [m |] eqn:E3;
       [right; exists m; split;
          [eapply truthy_In; exact E3 | apply ArrayFacts.get_set_same] |]);
    (destruct (truthy (find (fun sn => includes _ _) staff)) as [m |] eqn:E4;
       [right; exists m; split;
          [eapply truthy_In; exact E4 | apply ArrayFacts.get_set_same] |]);
    left; exact Hcell.
Qed.

(** X8.  [updateNames] invents no name: the name cell of every row of the
    result holds what it held, or the trimmed first cell of a row of the
    staff list, which is then neither absent nor blank. *)
Theorem updateNames_writes_staff_names
    (rosterSheets : list RosterSheet) (staffList : list Row) :
  Forall2
    (fun sheet sheet' =>
       Forall2
         (fun row row' =>
            get row' 5 = get row 5 \/
            exists staffRow,
              In staffRow staffList /\
              get row' 5 = CStr (trim (toStr (get staffRow 0))) /\
              trim (toStr (get staffRow 0)) <> EmptyString /\
              get staffRow 0 <> CNull /\ get staffRow 0 <> CUndefined)
         (data sheet) (data sheet'))
    rosterSheets (updateNames rosterSheets staffList).
Proof.
  unfold updateNames. apply Forall2_map_r. intros sheet. cbn [data].
  unfold mapi. apply Forall2_mapFrom. intros row rIdx.
  destruct (updateRow_name (staffFullNames staffList) row rIdx)
    as [Hsame | (sn & Hin & Hcell)]; [left; exact Hsame |].
  right. pose proof (staffFullNames_nonempty _ _ Hin) as Hne.
  destruct (staffFullNames_source _ _ Hin) as (staffRow & Hrow & -> & Hnull & Hundef).
  exists staffRow. auto.
Qed.

End Names.

(** A staff sheet with a blank column A names nobody. *)
Lemma updateNames_without_staff_witness :
  updateNames (host := utcHost) Sample.toResolve [[CNull; CStr "x"]; [CStr "  "]; []]
  = Sample.toResolve.
Proof.
  apply (updateNames_without_staff (host := utcHost)). reflexivity.
Defined.

(* ------------------------------------------------------------------ *)
(** ** Further properties: the annotations of a name *)

Module StringFacts.

Lemma append_assoc (a b c : string) : ((a ++ b) ++ c = a ++ (b ++ c))%string.
Proof. induction a; cbn; [reflexivity | now rewrite IHa]. Qed.

Lemma trimStart_allChars p s : allChars p s = true -> allChars p (trimStart s) = true.
Proof.
  induction s as [| c r IH]; cbn; [reflexivity |]. intros H.
  destruct (isWhiteSpace c); [| exact H].
  apply andb_prop in H. apply IH, H.
Qed.

Lemma trimEnd_allChars p s : allChars p s = true -> allChars p (trimEnd s) = true.
Proof.
  induction s as [| c r IH]; cbn; [reflexivity |]. intros H.
  apply andb_prop in H. destruct H as [Hc Hr]. specialize (IH Hr).
  destruct (trimEnd r) as [| c' r'].
  - destruct (isWhiteSpace c); cbn; [reflexivity | now rewrite Hc].
  - cbn [allChars] in *. now rewrite Hc, IH.
Qed.

Lemma trimStart_white s : trimStart s = EmptyString <-> allChars isWhiteSpace s = true.
Proof.
  induction s as [| c r IH]; cbn; [tauto |].
  destruct (isWhiteSpace c); cbn; [exact IH | split; discriminate].
Qed.

Lemma trimEnd_white s : trimEnd s = EmptyString <-> allChars isWhiteSpace s = true.
Proof.
  induction s as [| c r IH]; cbn; [tauto |].
  destruct (trimEnd r) as [| c' r'].
  - destruct (isWhiteSpace c); cbn; [| split; discriminate].
    split; [intros _; now apply IH | reflexivity].
  - split; [discriminate |]. intros H. apply andb_prop in H.
    destruct H as [_ H]. apply IH in H. discriminate.
Qed.

Lemma trimStart_head s c r : trimStart s = String c r -> isWhiteSpace c = false.
Proof.
  induction s as [| c0 r0 IH]; cbn; [discriminate |].
  destruct (isWhiteSpace c0) eqn:E; [exact IH |]. intros [= <- _]. exact E.
Qed.

Lemma trimStart_fixed c r : isWhiteSpace c = false -> trimStart (String c r) = String c r.
Proof. intros H. cbn. now rewrite H. Qed.

(** [trimEnd] keeps the first character when anything is left. *)
Lemma trimEnd_cons c r :
  trimEnd (String c r) =
  if isWhiteSpace c && allChars isWhiteSpace r then EmptyString
  else String c (trimEnd r).
Proof.
  cbn [trimEnd]. destruct (trimEnd r) as [| c' r'] eqn:E.
  - apply trimEnd_white in E. rewrite E, andb_true_r.
    destruct (isWhiteSpace c); reflexivity.
  - assert (allChars isWhiteSpace r = false) as ->.
    { destruct (allChars isWhiteSpace r) eqn:W; [| reflexivity].
      apply trimEnd_white in W. congruence. }
    now rewrite andb_false_r.
Qed.

Lemma trimEnd_idempotent s : trimEnd (trimEnd s) = trimEnd s.
Proof.
  induction s as [| c r IH]; [reflexivity |].
  rewrite trimEnd_cons.
  destruct (isWhiteSpace c && allChars isWhiteSpace r) eqn:E; [reflexivity |].
  rewrite trimEnd_cons, IH.
  assert (isWhiteSpace c && allChars isWhiteSpace (trimEnd r) = false) as ->;
    [| reflexivity].
  destruct (isWhiteSpace c); [| reflexivity]. cbn in *.
  destruct (allChars isWhiteSpace (trimEnd r)) eqn:W; [| reflexivity].
  apply trimEnd_white in W. rewrite IH in W. apply trimEnd_white in W. congruence.
Qed.

Lemma trimEnd_head s c r : trimStart s = s -> trimEnd s = String c r -> isWhiteSpace c = false.
Proof.
  destruct s as [| c0 r0]; [discriminate |]. intros Hfix.
  assert (isWhiteSpace c0 = false) as Hc0 by (eapply trimStart_head; exact Hfix).
  rewrite trimEnd_cons, Hc0. cbn [andb]. intros [= <- _]. exact Hc0.
Qed.

Lemma trimStart_idempotent s : trimStart (trimStart s) = trimStart s.
Proof.
  induction s as [| c r IH]; [reflexivity |]. cbn.
  destruct (isWhiteSpace c) eqn:E; [exact IH | cbn; now rewrite E].
Qed.

(** A trimmed string starts with no white space. *)
Lemma trimStart_trim s : trimStart (trim s) = trim s.
Proof.
  unfold trim. destruct (trimEnd (trimStart s)) as [| c r] eqn:E; [reflexivity |].
  apply trimStart_fixed. eapply trimEnd_head; [| exact E].
  apply trimStart_idempotent.
Qed.

Lemma trim_idempotent s : trim (trim s) = trim s.
Proof. unfold trim at 1. rewrite trimStart_trim. unfold trim. apply trimEnd_idempotent. Qed.

Lemma trimStart_app a c r :
  isWhiteSpace c = false ->
  (trimStart (a ++ String c r) = trimStart a ++ String c r)%string.
Proof.
  intros Hc. induction a as [| x a IH]; cbn; [now rewrite Hc |].
  destruct (isWhiteSpace x); [exact IH | reflexivity].
Qed.

Lemma trimEnd_snoc a c :
  isWhiteSpace c = false ->
  (trimEnd (a ++ String c EmptyString) = a ++ String c EmptyString)%string.
Proof.
  intros Hc. induction a as [| x a IH]; cbn; [now rewrite Hc |].
  rewrite IH. destruct (a ++ String c EmptyString)%string eqn:E; [| reflexivity].
  destruct a; discriminate.
Qed.

Lemma trimEnd_app_space a :
  trimEnd (a ++ " ") = trimEnd a.
Proof. induction a as [| x a IH]; cbn; [reflexivity | now rewrite IH]. Qed.

(** The match of [matchAnnotation], written with a comparison. *)
Lemma matchAnnotation_unfold s :
  matchAnnotation s =
  match trimStart s with
  | EmptyString => None
  | String c r => if Ascii.eqb c "(" then option_map trimStart (afterClose r) else None
  end.
Proof.
  unfold matchAnnotation. destruct (trimStart s) as [| c r]; [reflexivity |].
  destruct c as [[] [] [] [] [] [] [] []]; reflexivity.
Qed.

Lemma afterClose_text note rest :
  annotationText note = true ->
  afterClose (note ++ String ")" rest) = Some rest.
Proof.
  induction note as [| c note IH]; cbn; [reflexivity |]. intros H.
  apply andb_prop in H. destruct H as [Hc Hnote].
  apply andb_prop in Hc. destruct Hc as [Hclose Hline].
  apply negb_true_iff in Hclose, Hline. rewrite Hclose, Hline. now apply IH.
Qed.

Lemma replaceAnnotations_nil fuel : replaceAnnotations fuel EmptyString = EmptyString.
Proof. destruct fuel; reflexivity. Qed.

Lemma matchAnnotation_noOpen s : noOpen s = true -> matchAnnotation s = None.
Proof.
  intros H. rewrite matchAnnotation_unfold.
  apply trimStart_allChars in H. destruct (trimStart s) as [| c r]; [reflexivity |].
  cbn in H. apply andb_prop in H. destruct H as [H _].
  apply negb_true_iff in H. now rewrite H.
Qed.

Lemma replaceAnnotations_noOpen s : forall fuel,
  noOpen s = true -> replaceAnnotations fuel s = s.
Proof.
  induction s as [| c r IH]; intros fuel H; [apply replaceAnnotations_nil |].
  destruct fuel as [| fuel]; [reflexivity |]. cbn [replaceAnnotations].
  rewrite matchAnnotation_noOpen by exact H.
  cbn in H. apply andb_prop in H. now rewrite IH.
Qed.

(** The scan of a text without opening parenthesis that is followed by one
    annotation: the text without its trailing white space, and one space
    for the annotation. *)
Lemma replaceAnnotations_tail note u : forall fuel,
  noOpen u = true -> annotationText note = true ->
  (String.length (u ++ String "(" (note ++ ")")) <= fuel)%nat ->
  (replaceAnnotations fuel (u ++ String "(" (note ++ ")")) = trimEnd u ++ " ")%string.
Proof.
  induction u as [| c r IH]; intros fuel Hu Hnote Hfuel.
  - destruct fuel as [| fuel]; [cbn in Hfuel; lia |].
    cbn [append replaceAnnotations]. rewrite matchAnnotation_unfold.
    cbn [trimStart isWhiteSpace]. cbn.
    rewrite afterClose_text by exact Hnote. cbn.
    now rewrite replaceAnnotations_nil.
  - destruct fuel as [| fuel]; [cbn in Hfuel; lia |].
    cbn in Hu. apply andb_prop in Hu. destruct Hu as [Hc Hr].
    apply negb_true_iff in Hc.
    cbn [append replaceAnnotations].
    rewrite trimEnd_cons, matchAnnotation_unfold.
    destruct (isWhiteSpace c) eqn:Hwhite.
    + cbn [trimStart andb]. rewrite Hwhite.
      rewrite trimStart_app by reflexivity.
      destruct (allChars isWhiteSpace r) eqn:Hall.
      * apply trimStart_white in Hall. rewrite Hall. cbn [append].
        cbn. rewrite afterClose_text by exact Hnote. cbn.
        now rewrite replaceAnnotations_nil.
      * destruct (trimStart r) as [| x r'] eqn:Hstart.
        { apply trimStart_white in Hstart. congruence. }
        assert (Ascii.eqb x "(" = false) as Hx.
        { pose proof (trimStart_allChars _ _ Hr) as H. rewrite Hstart in H.
          cbn in H. apply andb_prop in H. destruct H as [H _].
          now apply negb_true_iff in H. }
        cbn [append]. rewrite Hx. cbn [append].
        rewrite IH; [reflexivity | exact Hr | exact Hnote |].
        cbn in Hfuel. lia.
    + cbn [trimStart andb]. rewrite Hwhite, Hc. cbn [append].
      rewrite IH; [reflexivity | exact Hr | exact Hnote |].
      cbn in Hfuel. lia.
Qed.

End StringFacts.

Section Annotations.
Context {host : Host}.

Import StringFacts.

(** X9.  A name without an opening parenthesis is only trimmed by the
    cleaning of lines 160-161. *)
Theorem cleanName_plain (s : string) :
  noOpen s = true -> cleanName (CStr s) = trim s.
Proof.
  intros H. unfold cleanName, stripAnnotations. cbn [toStr].
  rewrite replaceAnnotations_noOpen.
  - apply trim_idempotent.
  - unfold trim. now apply trimEnd_allChars, trimStart_allChars.
Qed.

(** X10.  A name followed by one parenthesised annotation cleans to the
    trimmed name: the annotation goes, with the white space before it. *)
Theorem cleanName_strips_annotation (nm note : string) :
  noOpen nm = true -> annotationText note = true ->
  cleanName (CStr (nm ++ "(" ++ note ++ ")")) = trim nm.
Proof.
  intros Hname Hnote. unfold cleanName, stripAnnotations. cbn [toStr].
  assert (trim (nm ++ "(" ++ note ++ ")")
          = (trimStart nm ++ String "(" (note ++ ")"))%string) as Htrim.
  { unfold trim. cbn [append]. rewrite trimStart_app by reflexivity.
    change (String "(" (note ++ ")"))%string with ("(" ++ (note ++ ")"))%string.
    rewrite <- !append_assoc. apply trimEnd_snoc. reflexivity. }
  rewrite Htrim.
  rewrite replaceAnnotations_tail;
    [| now apply trimStart_allChars | exact Hnote | apply Nat.le_refl].
  fold (trim nm). unfold trim at 1.
  destruct (trim nm) as [| c r] eqn:Hw; [reflexivity |].
  assert (isWhiteSpace c = false) as Hc.
  { pose proof (trimStart_trim nm) as Hfix. rewrite Hw in Hfix.
    eapply trimStart_head. exact Hfix. }
  cbn [append]. rewrite trimStart_fixed by exact Hc.
  change (String c (r ++ " "))%string with (String c r ++ " ")%string.
  rewrite trimEnd_app_space, <- Hw. unfold trim. apply trimEnd_idempotent.
Qed.

End Annotations.

Lemma cleanName_plain_witness :
  cleanName (host := utcHost) (CStr "  Ann Lee ") = trim "  Ann Lee ".
Proof. apply (cleanName_plain (host := utcHost) "  Ann Lee "). reflexivity. Defined.

Lemma cleanName_strips_annotation_witness :
  cleanName (host := utcHost) (CStr (" J. Smith  " ++ "(" ++ "am" ++ ")")) = trim " J. Smith  ".
Proof.
  apply (cleanName_strips_annotation (host := utcHost) " J. Smith  " "am").
  - reflexivity.
  - reflexivity.
Defined.

(* ------------------------------------------------------------------ *)
(** ** Further properties: export and edits *)

Section Exporter.
Context {host : Host}.

Lemma parseYMD_falsy val : falsy val = true -> parseYMD val = None.
Proof. destruct val; cbn; intros H; try reflexivity; [now rewrite H | now rewrite H | discriminate]. Qed.

Lemma exportRow_header row : exportRow row 0 = row.
Proof. reflexivity. Qed.

Lemma exportRow_cell2 row rIdx :
  (0 < rIdx)%nat -> get (exportRow row rIdx) 2 = exportedDateCell (get row 2).
Proof.
  intros Hidx. unfold exportRow, exportedDateCell.
  destruct (Nat.eqb_spec rIdx 0); [lia |].
  destruct (falsy (get row 2)) eqn:Hfalsy; cbn [negb].
  - now rewrite parseYMD_falsy.
  - destruct (parseYMD (get row 2)); [apply ArrayFacts.get_set_same | reflexivity].
Qed.

Lemma exportRow_frame row rIdx : sameBut2 row (exportRow row rIdx).
Proof.
  unfold exportRow. destruct (rIdx =? 0)%nat; [split; reflexivity |].
  destruct (falsy (get row 2)); cbn [negb]; [split; reflexivity |].
  destruct (parseYMD (get row 2)) as [d |] eqn:Hparse; [| split; reflexivity].
  apply parseYMD_some_truthy in Hparse. destruct Hparse as [_ Hdef].
  apply ArrayFacts.get_in_range in Hdef. split.
  - now apply ArrayFacts.set_length.
  - intros j Hj. now apply ArrayFacts.get_set_other.
Qed.

(** A second pass of the export callback changes nothing. *)
Lemma exportRow_idempotent row rIdx :
  exportRow (exportRow row rIdx) rIdx = exportRow row rIdx.
Proof.
  unfold exportRow at 1. destruct (Nat.eqb_spec rIdx 0) as [| Hne]; [reflexivity |].
  rewrite exportRow_cell2 by lia. unfold exportedDateCell.
  destruct (parseYMD (get row 2)) as [d |] eqn:Hparse.
  - cbn [falsy negb parseYMD]. apply set_same.
    + destruct (exportRow_frame row rIdx) as [-> _].
      apply parseYMD_some_truthy in Hparse. destruct Hparse as [_ Hdef].
      now apply ArrayFacts.get_in_range in Hdef.
    + rewrite exportRow_cell2 by lia. unfold exportedDateCell. now rewrite Hparse.
  - rewrite Hparse. destruct (falsy (get row 2)); reflexivity.
Qed.

Lemma exportRow_clean majorityMonth row rIdx :
  cleanRow majorityMonth row -> exportRow row rIdx = row.
Proof.
  intros (Hlen & d & Hcell & _). unfold exportRow.
  destruct (rIdx =? 0)%nat; [reflexivity |]. rewrite Hcell. cbn [falsy negb parseYMD].
  apply set_same; [lia | exact Hcell].
Qed.

Lemma mapFrom_mapFrom {A B C} (f : B -> nat -> C) (g : A -> nat -> B) l i :
  mapFrom i f (mapFrom i g l) = mapFrom i (fun x n => f (g x n) n) l.
Proof. revert i. induction l; intros i; cbn; [reflexivity | now rewrite IHl]. Qed.

Lemma mapFrom_ext {A B} (f g : A -> nat -> B) l i :
  (forall x n, f x n = g x n) -> mapFrom i f l = mapFrom i g l.
Proof. intros H. revert i. induction l; intros i; cbn; [reflexivity | now rewrite H, IHl]. Qed.

Lemma Forall2_mapFrom_pos {A B} (P : A -> B -> Prop) (f : A -> nat -> B) l i :
  (forall x n, (0 < n)%nat -> P x (f x n)) -> (0 < i)%nat ->
  Forall2 P l (mapFrom i f l).
Proof.
  intros HP. revert i.
  induction l; intros i Hi; cbn; constructor; [now apply HP | apply IHl; lia].
Qed.

(** X11.  What [exportToExcel] hands to the spreadsheet library for a
    sheet: the same number of rows, each of its length; row 0 as it is;
    every cell at an index other than 2 as it is; and at index 2 of a data
    row the Date the cell parses to, or the cell itself when it does not
    parse. *)
Theorem numericData_frame (sheet : RosterSheet) :
  Forall2 sameBut2 (data sheet) (numericData sheet) /\
  hd_error (numericData sheet) = hd_error (data sheet) /\
  Forall2 (fun row row' => get row' 2 = exportedDateCell (get row 2))
          (tl (data sheet)) (tl (numericData sheet)).
Proof.
  unfold numericData, mapi. repeat split.
  - apply Forall2_mapFrom. intros row rIdx. apply exportRow_frame.
  - destruct (data sheet); reflexivity.
  - destruct (data sheet) as [| header rows]; [constructor |].
    cbn [mapFrom tl]. apply Forall2_mapFrom_pos; [| lia].
    intros row n Hn. now apply exportRow_cell2.
Qed.

(** X12.  Exporting what an export produced changes nothing: a date cell
    already stored as a Date stays that Date. *)
Theorem numericData_idempotent (sheet : RosterSheet) :
  numericData (mkSheet (name sheet) (numericData sheet)) = numericData sheet.
Proof.
  unfold numericData, mapi. cbn [data].
  rewrite mapFrom_mapFrom. apply mapFrom_ext.
  intros row n. apply exportRow_idempotent.
Qed.

End Exporter.

Module EditFacts.

Lemma replaceAt_length {A} (l : list A) i x :
  List.length (replaceAt l i x) = List.length l.
Proof.
  revert i. induction l as [| y l IH]; intros [| i]; cbn; auto.
Qed.

Lemma replaceAt_nth_same {A} (l : list A) i x d :
  (i < List.length l)%nat -> nth i (replaceAt l i x) d = x.
Proof.
  revert i. induction l as [| y l IH]; intros [| i] Hi; cbn in *; try lia; auto.
  apply IH. lia.
Qed.

Lemma replaceAt_nth_other {A} (l : list A) i j x d :
  j <> i -> nth j (replaceAt l i x) d = nth j l d.
Proof.
  revert i j. induction l as [| y l IH]; intros [| i] [| j] Hne; cbn; auto;
    try congruence.
Qed.

Lemma get_set_any (row : Row) i j v : j <> i -> get (set row i v) j = get row j.
Proof.
  unfold get. revert i j. induction row as [| c row IH]; intros i j Hne.
  - revert j Hne. induction i as [| i IHi]; intros [| j] Hne; cbn; try congruence.
    + now destruct j.
    + rewrite IHi by congruence. now destruct j.
  - destruct i, j; cbn; try congruence; try reflexivity. apply IH. congruence.
Qed.

End EditFacts.

Section Edits.
Context {host : Host}.

Import EditFacts.

Lemma nth_error_nth_default {A} (l : list A) i x d :
  nth_error l i = Some x -> nth i l d = x /\ (i < List.length l)%nat.
Proof.
  intros H. split; [now apply nth_error_nth |].
  apply nth_error_Some. congruence.
Qed.

(** X13.  An edit fails exactly when the sheet or the row does not exist.
    Otherwise the stored roster has the same sheets under the same names
    with the same numbers of rows; the edited cell reads back as the text
    typed; every other cell of that row and every other row are as they
    were. *)
Theorem handleCellChange_spec
    (cleanedRoster : list RosterSheet) (sheetIndex rowIndex colIndex : nat)
    (value : string) :
  (handleCellChange cleanedRoster sheetIndex rowIndex colIndex value = None <->
   (List.length cleanedRoster <= sheetIndex)%nat \/
   (List.length (data (nth sheetIndex cleanedRoster (mkSheet EmptyString []))) <= rowIndex)%nat) /\
  (forall updated,
     handleCellChange cleanedRoster sheetIndex rowIndex colIndex value = Some updated ->
     map name updated = map name cleanedRoster /\
     map (fun sheet => List.length (data sheet)) updated
       = map (fun sheet => List.length (data sheet)) cleanedRoster /\
     get (rowAt updated sheetIndex rowIndex) colIndex = CStr value /\
     (forall j, j <> colIndex ->
        get (rowAt updated sheetIndex rowIndex) j
        = get (rowAt cleanedRoster sheetIndex rowIndex) j) /\
     (forall k i, (k, i) <> (sheetIndex, rowIndex) ->
        rowAt updated k i = rowAt cleanedRoster k i)).
Proof.
  unfold handleCellChange. split.
  - destruct (nth_error cleanedRoster sheetIndex) as [sheet |] eqn:Hsheet.
    + apply (nth_error_nth_default _ _ _ (mkSheet EmptyString [])) in Hsheet.
      destruct Hsheet as [-> Hk].
      destruct (nth_error (data sheet) rowIndex) as [row |] eqn:Hrow.
      * split; [discriminate |].
        intros [H | H]; [lia |].
        assert (nth_error (data sheet) rowIndex <> None) as Hin by congruence.
        apply nth_error_Some in Hin. lia.
      * split; [| reflexivity]. intros _. right. now apply nth_error_None.
    + split; [| reflexivity]. intros _. left. now apply nth_error_None.
  - intros updated Hsome.
    destruct (nth_error cleanedRoster sheetIndex) as [sheet |] eqn:Hsheet;
      [| discriminate].
    destruct (nth_error (data sheet) rowIndex) as [row |] eqn:Hrow; [| discriminate].
    inversion Hsome; subst updated; clear Hsome.
    apply (nth_error_nth_default _ _ _ (mkSheet EmptyString [])) in Hsheet.
    destruct Hsheet as [Hsheet Hk].
    apply (nth_error_nth_default _ _ _ []) in Hrow. destruct Hrow as [Hrow Hi].
    assert (forall k,
              nth k (replaceAt cleanedRoster sheetIndex
                       (mkSheet (name sheet)
                          (replaceAt (data sheet) rowIndex
                             (set row colIndex (CStr value)))))
                    (mkSheet EmptyString [])
              = if (k =? sheetIndex)%nat
                then mkSheet (name sheet)
                       (replaceAt (data sheet) rowIndex (set row colIndex (CStr value)))
                else nth k cleanedRoster (mkSheet EmptyString [])) as Hnth.
    { intros k. destruct (Nat.eqb_spec k sheetIndex) as [-> | Hne].
      - now apply replaceAt_nth_same.
      - now apply replaceAt_nth_other. }
    repeat split.
    + apply nth_ext with (d := EmptyString) (d' := EmptyString);
        [now rewrite !length_map, replaceAt_length |].
      intros k Hklen. rewrite length_map, replaceAt_length in Hklen.
      rewrite !(ArrayFacts.map_nth_lt name _ _ (mkSheet EmptyString []))
        by (try rewrite replaceAt_length; exact Hklen).
      rewrite Hnth. destruct (Nat.eqb_spec k sheetIndex) as [-> | _];
        [now rewrite Hsheet | reflexivity].
    + apply nth_ext with (d := 0%nat) (d' := 0%nat);
        [now rewrite !length_map, replaceAt_length |].
      intros k Hklen. rewrite length_map, replaceAt_length in Hklen.
      rewrite !(ArrayFacts.map_nth_lt (fun sheet => List.length (data sheet)) _ _
                  (mkSheet EmptyString []))
        by (try rewrite replaceAt_length; exact Hklen).
      rewrite Hnth. destruct (Nat.eqb_spec k sheetIndex) as [-> | _]; [| reflexivity].
      cbn [data]. now rewrite replaceAt_length, Hsheet.
    + unfold rowAt. rewrite Hnth, Nat.eqb_refl. cbn [data].
      rewrite replaceAt_nth_same by exact Hi. apply ArrayFacts.get_set_same.
    + intros j Hj. unfold rowAt. rewrite Hnth, Nat.eqb_refl. cbn [data].
      rewrite replaceAt_nth_same by exact Hi. rewrite Hsheet.
      transitivity (get row j); [now apply get_set_any | now rewrite <- Hrow].
    + intros k i Hne. unfold rowAt. rewrite Hnth.
      destruct (Nat.eqb_spec k sheetIndex) as [-> | _]; [| reflexivity].
      cbn [data]. rewrite Hsheet. apply replaceAt_nth_other. congruence.
Qed.

(** X14.  A date typed into column C of a data row is exported as the Date
    it parses to, and as the text typed when it does not parse. *)
Theorem edited_date_is_exported
    (cleanedRoster updated : list RosterSheet) (sheetIndex rowIndex : nat)
    (value : string) :
  handleCellChange cleanedRoster sheetIndex rowIndex 2 value = Some updated ->
  (0 < rowIndex)%nat ->
  get (nth rowIndex
         (numericData (nth sheetIndex updated (mkSheet EmptyString []))) []) 2
  = exportedDateCell (CStr value).
Proof.
  intros Hedit Hidx.
  assert (get (rowAt updated sheetIndex rowIndex) 2 = CStr value /\
          (rowIndex < List.length
             (data (nth sheetIndex updated (mkSheet EmptyString []))))%nat)
    as [Hcell Hlen].
  { unfold handleCellChange in Hedit.
    destruct (nth_error cleanedRoster sheetIndex) as [sheet |] eqn:Hsheet;
      [| discriminate].
    destruct (nth_error (data sheet) rowIndex) as [row |] eqn:Hrow; [| discriminate].
    inversion Hedit; subst updated; clear Hedit.
    apply (nth_error_nth_default _ _ _ (mkSheet EmptyString [])) in Hsheet.
    destruct Hsheet as [_ Hk].
    apply (nth_error_nth_default _ _ _ []) in Hrow. destruct Hrow as [_ Hi].
    unfold rowAt. rewrite replaceAt_nth_same by exact Hk. cbn [data].
    rewrite replaceAt_length, replaceAt_nth_same by exact Hi.
    split; [exact (ArrayFacts.get_set_same row 2 (CStr value)) | exact Hi]. }
  unfold numericData, mapi.
  rewrite (ArrayFacts.mapFrom_nth exportRow _ 0 rowIndex ([] : Row) ([] : Row))
    by exact Hlen.
  cbn [Nat.add]. rewrite exportRow_cell2 by exact Hidx.
  unfold rowAt in Hcell. now rewrite Hcell.
Qed.

End Edits.

(** 7 March 2024 typed over the date of the first data row. *)
Lemma edited_date_is_exported_witness :
  get (nth 1
         (numericData (host := utcHost)
            (nth 0
               [mkSheet "20240301"
                  [firstn 8 Sample.header;
                   set Sample.march5Clean 2 (CStr "2024-03-07");
                   Sample.march9Clean; Sample.annClean; Sample.claraClean]]
               (mkSheet EmptyString []))) []) 2
  = exportedDateCell (host := utcHost) (CStr "2024-03-07").
Proof.
  apply (edited_date_is_exported (host := utcHost) Sample.toResolve _ 0 1 "2024-03-07").
  - reflexivity.
  - lia.
Defined.

(* ------------------------------------------------------------------ *)
(** ** Further properties: what [startProcessing] shows *)

Section Processing.
Context {host : Host}.

Lemma cleanRow_updateRow staff month row rIdx :
  cleanRow month row -> cleanRow month (updateRow staff row rIdx).
Proof.
  intros (Hlen & d & Hcell & Hkey).
  destruct (updateRow_frame staff row rIdx) as [Hlen' Hcells].
  split; [congruence |]. exists d. split; [| exact Hkey].
  rewrite Hcells by discriminate. exact Hcell.
Qed.

Lemma Forall_mapFrom {A B} (P : A -> Prop) (Q : B -> Prop) (f : A -> nat -> B) l i :
  (forall x n, P x -> Q (f x n)) -> Forall P l -> Forall Q (mapFrom i f l).
Proof.
  intros HPQ Hall. revert i.
  induction Hall; intros i; cbn; constructor; auto.
Qed.

Lemma verifiedSheet_cleaned sheets month sheet :
  In sheet (cleanRosterData sheets month) -> verifiedSheet month sheet.
Proof.
  intros Hin.
  destruct (cleanRosterData_shape _ _ _ Hin)
    as (header & row & rows & Hdata & Hheader & Hrows).
  exists header, row, rows. repeat split; auto.
  apply cleanRosterData_In in Hin. destruct Hin as (input & _ & -> & _).
  apply cleanSheet_length.
Qed.

Lemma verifiedSheet_updateNames staff month sheet :
  verifiedSheet month sheet ->
  verifiedSheet month (mkSheet (name sheet) (mapi (updateRow staff) (data sheet))).
Proof.
  intros (header & row & rows & Hdata & Hheader & Hlen & Hrows).
  exists header, (updateRow staff row 1), (mapFrom 2 (updateRow staff) rows).
  cbn [data]. rewrite Hdata in *. unfold mapi. cbn [mapFrom]. repeat split; auto.
  - cbn [List.length] in *. now rewrite ArrayFacts.mapFrom_length.
  - inversion Hrows as [| ? ? Hrow Hrest]; subst. constructor.
    + now apply cleanRow_updateRow.
    + eapply Forall_mapFrom; [| exact Hrest].
      intros r n Hr. now apply cleanRow_updateRow.
Qed.

Lemma numericData_verified month sheet :
  verifiedSheet month sheet -> numericData sheet = data sheet.
Proof.
  intros (header & row & rows & Hdata & _ & _ & Hrows).
  unfold numericData, mapi. rewrite Hdata.
  change (mapFrom 0 exportRow (header :: row :: rows))
    with (exportRow header 0 :: mapFrom 1 exportRow (row :: rows)).
  rewrite exportRow_header. f_equal.
  apply mapFrom_id. eapply Forall_impl; [| exact Hrows].
  intros r Hr n. now apply (exportRow_clean month).
Qed.


(** X15.  When [startProcessing] reaches the verification step, the month
    it stores is the majority month of the input, and of the roster it
    stores; that roster has at least one sheet; each of its sheets has a
    header of eight cells over 1 to 71 data rows of eight cells whose cell
    2 is a Date of that month, and bears the name of an input sheet; and
    exporting it at once stores its cells as they are. *)
Theorem startProcessing_verify
    (rosterSheets staffSheets : list RosterSheet) (month : string)
    (finalRoster : list RosterSheet) :
  startProcessing rosterSheets staffSheets = Verify month finalRoster ->
  findMajorityMonth rosterSheets = Some month /\
  findMajorityMonth finalRoster = Some month /\
  finalRoster <> [] /\
  Forall (fun sheet =>
            verifiedSheet month sheet /\
            numericData sheet = data sheet /\
            exists input, In input rosterSheets /\ name input = name sheet)
         finalRoster.
Proof.
  unfold startProcessing.
  destruct (List.length rosterSheets =? 0)%nat; [discriminate |].
  destruct (findMajorityMonth rosterSheets) as [m |] eqn:Hmaj; [| discriminate].
  destruct (String.eqb m EmptyString); [discriminate |].
  destruct (List.length (cleanRosterData rosterSheets m) =? 0)%nat eqn:Hlen;
    [discriminate |].
  intros Hverify. injection Hverify as <- <-.
  assert (cleanRosterData rosterSheets m <> []) as Hne
    by (intros Hnil; rewrite Hnil in Hlen; discriminate).
  repeat split.
  - destruct (findMajorityMonth_cases
                (updateNames (cleanRosterData rosterSheets m)
                   match staffSheets with
                   | [] => []
                   | sheet :: _ => data sheet
                   end)) as [[_ Hkeys] | (k & -> & Hin)];
      rewrite dateKeys_updateNames in *.
    + now apply dateKeys_cleaned_nonempty in Hne.
    + f_equal. eapply dateKeys_cleaned. exact Hin.
  - unfold updateNames. intros Hnil. apply map_eq_nil in Hnil. contradiction.
  - unfold updateNames. apply Forall_forall. intros sheet Hin.
    apply in_map_iff in Hin. destruct Hin as (cleaned & <- & Hin).
    pose proof (verifiedSheet_cleaned _ _ _ Hin) as Hshape.
    pose proof (verifiedSheet_updateNames
                  (staffFullNames match staffSheets with
                                  | [] => []
                                  | sheet :: _ => data sheet
                                  end) _ _ Hshape) as Hshape'.
    split; [exact Hshape' |]. split; [eapply numericData_verified; exact Hshape' |].
    apply cleanRosterData_In in Hin. destruct Hin as (input & Hinput & -> & _).
    exists input. split; [exact Hinput | reflexivity].
Qed.

(** X16.  [startProcessing] alerts "No valid tabs found" exactly when it is
    given no sheet, and "Could not identify dates" exactly when it is given
    sheets none of whose rows after row 0 has a date cell that parses. *)
Theorem startProcessing_alerts (rosterSheets staffSheets : list RosterSheet) :
  (startProcessing rosterSheets staffSheets = AlertNoTabs <-> rosterSheets = []) /\
  (startProcessing rosterSheets staffSheets = AlertNoDates <->
   rosterSheets <> [] /\
   forall sheet row, In sheet rosterSheets -> In row (tl (data sheet)) ->
                     parseYMD (get row 2) = None).
Proof.
  unfold startProcessing. rewrite <- dateKeys_nil.
  destruct rosterSheets as [| sheet0 rest] eqn:Hsheets.
  - cbn. split; split; try reflexivity; try discriminate. intros [H _]. congruence.
  - rewrite <- Hsheets. replace (List.length rosterSheets =? 0)%nat with false
      by (rewrite Hsheets; reflexivity).
    destruct (findMajorityMonth_cases rosterSheets)
      as [[-> Hkeys] | (k & -> & Hin)].
    + split; split; try discriminate; try congruence.
      intros _. split; [congruence | exact Hkeys].
    + assert (String.eqb k EmptyString = false) as ->.
      { apply String.eqb_neq. apply dateKeys_In in Hin.
        destruct Hin as (_ & _ & d & _ & _ & _ & <-). apply monthKey_nonempty. }
      destruct (List.length (cleanRosterData rosterSheets k) =? 0)%nat;
        (split; split; try discriminate; try congruence;
         intros [_ Hkeys]; rewrite Hkeys in Hin; contradiction).
Qed.

End Processing.

(** The sample workbook reaches the verification step for March 2024. *)
Lemma startProcessing_verify_witness :
  findMajorityMonth (host := utcHost) Sample.roster = Some "2024-03" /\
  findMajorityMonth (host := utcHost)
    (updateNames (host := utcHost) Sample.cleaned [[CStr "Jane Smith"]])
    = Some "2024-03" /\
  updateNames (host := utcHost) Sample.cleaned [[CStr "Jane Smith"]] <> [] /\
  Forall (fun sheet =>
            verifiedSheet (host := utcHost) "2024-03" sheet /\
            numericData (host := utcHost) sheet = data sheet /\
            exists input, In input Sample.roster /\ name input = name sheet)
         (updateNames (host := utcHost) Sample.cleaned [[CStr "Jane Smith"]]).
Proof.
  apply (startProcessing_verify (host := utcHost)
           Sample.roster [mkSheet "Staff" [[CStr "Jane Smith"]]]).
  vm_compute. reflexivity.
Defined.

(* ------------------------------------------------------------------ *)
(** ** Further properties: the native parser *)

Section NativeParser.
Context {host : Host}.

Lemma split_length sep s :
  List.length (split sep s) = S (countChars sep s).
Proof.
  induction s as [| c r IH]; [reflexivity |]. cbn [split countChars].
  destruct (sep c); cbn [List.length]; [now rewrite IH |].
  destruct (split sep r); cbn in *; lia.
Qed.

(** X17.  A non-empty text whose trimmed form does not hold exactly two
    separators ('/' or '-') is left to the native parser: [parseYMD]
    returns what [new Date(str)] gives for the trimmed text, null when that
    is an invalid Date. *)
Theorem parseYMD_native_parser (s : string) :
  s <> EmptyString ->
  countChars isDateSeparator (trim s) <> 2%nat ->
  parseYMD (CStr s) = dateParse (trim s).
Proof.
  intros Hne Hcount. unfold parseYMD, falsy. cbn [toStr].
  destruct (String.eqb_spec s EmptyString); [contradiction |].
  unfold parseComponents.
  pose proof (split_length isDateSeparator (trim s)) as Hlen.
  destruct (split isDateSeparator (trim s)) as [| p0 [| p1 [| p2 [| p3 ps]]]];
    try reflexivity.
  cbn in Hlen. lia.
Qed.

End NativeParser.

Lemma parseYMD_native_parser_witness :
  parseYMD (host := utcHost) (CStr " 5 March 2024 ")
  = dateParse (Host := utcHost) (trim " 5 March 2024 ").
Proof.
  apply (parseYMD_native_parser (host := utcHost) " 5 March 2024 ").
  - discriminate.
  - vm_compute. discriminate.
Defined.
